(** * Secure Tasks: the runtime self-protection layer

    A shallow embedding of the three detectors
    ([security/antiDebug.js], [security/domGuard.js],
    [security/selfDefend.js]) and of the lock-down wiring in [app.js],
    followed by the properties of the design document that are checked
    against them.

    The browser is modelled as an explicit page state.  What external code
    (the user, an attacker at the console, the rest of the application) can
    reach is the [Host] part: the window properties the detectors read, the
    document, and the console.  The variables captured by the closures that
    the start functions create, and the table of interval timers, are kept
    outside of [Host], so a registered callback cannot touch them.

    Two simplifications of the browser are made.  The element tree is not
    modelled: the document maps a selector to its first matching element,
    and the text of one element is independent of the text of another.
    Numbers are exact: window sizes and string lengths are integers and
    clock readings are rationals; string lengths stay far below 2^52, where
    the double-precision quotient of two lengths compares with 3 as the
    exact one does. *)

From stdpp Require Import gmap strings list pretty.
From Stdlib Require Import QArith.

Local Open Scope string_scope.
Local Open Scope list_scope.
Local Open Scope Z_scope.

(** ** JavaScript values and completions *)

(** An exception value, kept as its description. *)
Definition exn := string.

(** The outcome of reading a property or calling a method of the
    environment: a value, or an exception raised by a getter. *)
Inductive reading (A : Type) : Type :=
  | Val (a : A)
  | Raises (e : exn).
Arguments Val {A} a.
Arguments Raises {A} e.

(** The outcome of running a piece of code. *)
Inductive completion (A : Type) : Type :=
  | Normal (a : A)
  | Throw (e : exn).
Arguments Normal {A} a.
Arguments Throw {A} e.

(** A string whose characters matter is a list of UTF-16 code units. *)
Definition units (s : string) : list Z :=
  (fun a => Z.of_N (Ascii.N_of_ascii a)) <$> String.list_ascii_of_string s.

(** The values that can sit behind [window.__selfDefendInfo.targetFn].  A
    function is known by its source text, any other object by what its
    [toString()] does. *)
Inductive jsval : Type :=
  | VUndefined
  | VNull
  | VBool (b : bool)
  | VNum (n : Z)
  | VNaN
  | VStr (s : list Z)
  | VFun (source : list Z)
  | VObj (to_string : reading (list Z)).

Definition truthy (v : jsval) : bool :=
  match v with
  | VUndefined | VNull | VNaN => false
  | VBool b => b
  | VNum n => negb (n =? 0)
  | VStr s => match s with [] => false | _ => true end
  | VFun _ | VObj _ => true
  end.

(** [v.toString()] *)
Definition toString (v : jsval) : reading (list Z) :=
  match v with
  | VUndefined => Raises "TypeError: Cannot read properties of undefined"
  | VNull => Raises "TypeError: Cannot read properties of null"
  | VBool b => Val (units (if b then "true" else "false"))
  | VNum n => Val (units (pretty n))
  | VNaN => Val (units "NaN")
  | VStr s => Val s
  | VFun source => Val source
  | VObj r => r
  end.

(** ** The host page *)

Record Element : Type := mkElement {
  textContent : reading (option string);
  opacity : string;
  pointerEvents : string
}.

Record Button : Type := mkButton {
  label : string;
  disabled : bool
}.

(** [elements] is keyed by selector ([document.querySelector]); an element
    id [x] is found under the selector [#x] ([document.getElementById]).
    [buttons] is what [document.querySelectorAll('button')] returns. *)
Record Document : Type := mkDocument {
  elements : gmap string Element;
  buttons : list Button
}.

(** The object stored in [window.__selfDefendInfo]. *)
Record SelfDefendInfo : Type := mkInfo {
  targetFn : jsval;
  originalHash : jsval
}.

(** [performance_now k] is what the [k]-th call of [performance.now()]
    returns; [clock_reads] counts the calls made so far.
    [selfDefendInfo] is [None] when the property is absent, undefined or
    null. *)
Record Window : Type := mkWindow {
  outerWidth : reading Z;
  innerWidth : reading Z;
  outerHeight : reading Z;
  innerHeight : reading Z;
  performance_now : nat -> reading Q;
  clock_reads : nat;
  selfDefendInfo : option SelfDefendInfo
}.

Inductive level : Type := LLog | LWarn.

Record Host : Type := mkHost {
  window : Window;
  document : Document;
  console : list (level * list string)
}.

(** ** Closures, timers and the page *)

Inductive detector : Type := AntiDebug | DomGuard | SelfDefend.

Global Instance detector_eq_dec : EqDecision detector.
Proof. solve_decision. Defined.

(** A callback handed to a start function: it receives the reason code and
    acts on the host. *)
Definition Callback : Type := string -> Host -> completion unit * Host.

(** A property of a config object. *)
Inductive prop : Type :=
  | PFun (f : Callback)
  | PVal (v : jsval).

Abbreviation Config := (gmap string prop).

(** The variables captured by one detector: its "already triggered" flag
    ([alreadyDetected], [alreadyTriggered], [alreadyFailed]), its
    [intervalId] ([None] is [null]) and the callback destructured from the
    config ([None] is [undefined]).  A start function is run once per page,
    as [init] does, so the page keeps one such set per detector. *)
Record Closure : Type := mkClosure {
  already : bool;
  intervalId : option nat;
  callback : option prop
}.

Record SnapshotItem : Type := mkItem {
  selector : string;
  exists_ : bool;
  textLength : nat
}.

(** Calls made to the timer interface and to the registered callbacks, in
    order. *)
Inductive call : Type :=
  | SetInterval (id : nat) (d : detector) (ms : Z)
  | ClearInterval (id : nat)
  | Invoke (d : detector) (reason : string).

Record Page : Type := mkPage {
  host : Host;
  timers : gmap nat (detector * Z);
  next_timer : nat;
  calls : list call;
  closures : detector -> Closure;
  initialSnapshot : list SnapshotItem;
  sd_originalHash : Z
}.

Definition fresh_closure : Closure :=
  {| already := false; intervalId := None; callback := None |}.

(** A freshly loaded page: no detector started, no timer. *)
Definition load (h : Host) : Page :=
  {| host := h; timers := ∅; next_timer := 1; calls := [];
     closures := fun _ => fresh_closure;
     initialSnapshot := []; sd_originalHash := 0 |}.

(** *** Updates *)

Definition with_host (f : Host -> Host) (p : Page) : Page :=
  {| host := f (host p); timers := timers p; next_timer := next_timer p;
     calls := calls p; closures := closures p;
     initialSnapshot := initialSnapshot p;
     sd_originalHash := sd_originalHash p |}.

Definition with_closure (d : detector) (f : Closure -> Closure) (p : Page) : Page :=
  {| host := host p; timers := timers p; next_timer := next_timer p;
     calls := calls p;
     closures := fun d' => if decide (d' = d) then f (closures p d') else closures p d';
     initialSnapshot := initialSnapshot p;
     sd_originalHash := sd_originalHash p |}.

Definition with_call (c : call) (p : Page) : Page :=
  {| host := host p; timers := timers p; next_timer := next_timer p;
     calls := calls p ++ [c]; closures := closures p;
     initialSnapshot := initialSnapshot p;
     sd_originalHash := sd_originalHash p |}.

Definition with_timers (f : gmap nat (detector * Z) -> gmap nat (detector * Z))
    (n : nat) (p : Page) : Page :=
  {| host := host p; timers := f (timers p); next_timer := n;
     calls := calls p; closures := closures p;
     initialSnapshot := initialSnapshot p;
     sd_originalHash := sd_originalHash p |}.

Definition with_console (e : level * list string) (h : Host) : Host :=
  {| window := window h; document := document h; console := console h ++ [e] |}.

Definition with_window (f : Window -> Window) (h : Host) : Host :=
  {| window := f (window h); document := document h; console := console h |}.

Definition with_document (f : Document -> Document) (h : Host) : Host :=
  {| window := window h; document := f (document h); console := console h |}.

Definition set_already (b : bool) (c : Closure) : Closure :=
  {| already := b; intervalId := intervalId c; callback := callback c |}.

Definition set_intervalId (i : option nat) (c : Closure) : Closure :=
  {| already := already c; intervalId := i; callback := callback c |}.

(** ** Code as state transformers that may throw *)

Definition M (A : Type) : Type := Page -> completion A * Page.

Global Instance M_ret : MRet M := fun A a p => (Normal a, p).

Global Instance M_bind : MBind M := fun A B f m p =>
  match m p with
  | (Normal a, p') => f a p'
  | (Throw e, p') => (Throw e, p')
  end.

(** [try { body } catch (err) { handler err }] *)
Definition try_catch {A} (body : M A) (handler : exn -> M A) : M A :=
  fun p =>
    match body p with
    | (Normal a, p') => (Normal a, p')
    | (Throw e, p') => handler e p'
    end.

(** Reading something from the environment. *)
Definition read {A} (f : Host -> reading A) : M A :=
  fun p => match f (host p) with
           | Val a => (Normal a, p)
           | Raises e => (Throw e, p)
           end.

Definition modify (f : Page -> Page) : M unit := fun p => (Normal tt, f p).

Definition console_log (parts : list string) : M unit :=
  modify (with_host (with_console (LLog, parts))).

Definition console_warn (parts : list string) : M unit :=
  modify (with_host (with_console (LWarn, parts))).

(** Running a host callback on the page. *)
Definition call_host (f : Host -> completion unit * Host) : M unit :=
  fun p => let '(c, h) := f (host p) in (c, with_host (fun _ => h) p).

(** [window.setInterval(handler, ms)]: the handler is the tick routine of
    detector [d]. *)
Definition setInterval (d : detector) (ms : Z) : M nat :=
  fun p =>
    let id := next_timer p in
    (Normal id,
     with_call (SetInterval id d ms)
       (with_timers (insert id (d, ms)) (S id) p)).

(** [clearInterval(id)] *)
Definition clearInterval (id : nat) : M unit :=
  modify (fun p => with_call (ClearInterval id)
                     (with_timers (delete id) (next_timer p) p)).

(** [performance.now()] *)
Definition performance_now_call : M Q :=
  fun p =>
    let w := window (host p) in
    let p' := with_host (with_window (fun w =>
                {| outerWidth := outerWidth w; innerWidth := innerWidth w;
                   outerHeight := outerHeight w; innerHeight := innerHeight w;
                   performance_now := performance_now w;
                   clock_reads := S (clock_reads w);
                   selfDefendInfo := selfDefendInfo w |})) p in
    match performance_now w (clock_reads w) with
    | Val t => (Normal t, p')
    | Raises e => (Throw e, p')
    end.

Definition get {A} (f : Page -> A) : M A := fun p => (Normal (f p), p).

(** [a > b] on exact rationals. *)
Definition Qgtb (a b : Q) : bool := negb (Qle_bool a b).

(** ** The once-only trigger shared by the three detectors

    [triggerDetection], [triggerTamper] and [triggerFail] are the same
    routine up to the names of the captured variables and the text of the
    warning; [trigger d] is that routine for detector [d]. *)

Definition trigger_banner (d : detector) : string :=
  match d with
  | AntiDebug => "[antiDebug] DevTools detected via:"
  | DomGuard => "[domGuard] Tampering detected. Reason:"
  | SelfDefend => "[selfDefend] Integrity failure detected. Reason:"
  end.

Definition trigger (d : detector) (reason : string) : M unit :=
  c ← get (fun p => closures p d);
  if already c then mret tt
  else
    modify (with_closure d (set_already true));;
    console_warn [trigger_banner d; reason];;
    match intervalId c with
    | Some id =>
        clearInterval id;;
        modify (with_closure d (set_intervalId None))
    | None => mret tt
    end;;
    match callback c with
    | Some (PFun f) =>
        modify (with_call (Invoke d reason));;
        call_host (f reason)
    | _ => mret tt
    end.

(** [{ name } = {}]: the one property a start function destructures from
    its argument. *)
Definition destructure (config : option Config) (name : string) : option prop :=
  default ∅ config !! name.

(** ** [security/antiDebug.js] *)
Module antiDebug.

Definition DETECTION_INTERVAL_MS : Z := 3000.
Definition SIZE_THRESHOLD : Z := 160.

Definition isDevToolsOpenBySize : M bool :=
  ow ← read (fun h => outerWidth (window h));
  iw ← read (fun h => innerWidth (window h));
  let widthDiff := ow - iw in
  oh ← read (fun h => outerHeight (window h));
  ih ← read (fun h => innerHeight (window h));
  let heightDiff := oh - ih in
  mret ((widthDiff >? SIZE_THRESHOLD) || (heightDiff >? SIZE_THRESHOLD)).

Definition isDevToolsOpenByTiming : M bool :=
  start ← performance_now_call;
  (* debugger; *)
  end_ ← performance_now_call;
  let delta := (end_ - start)%Q in
  mret (Qgtb delta 100).

Definition triggerDetection : string -> M unit := trigger AntiDebug.

Definition runChecks : M unit :=
  try_catch (A := unit)
    (bySize ← isDevToolsOpenBySize;
     if (bySize : bool) then triggerDetection "window-size-heuristic"
     else
       byTiming ← isDevToolsOpenByTiming;
       if (byTiming : bool) then triggerDetection "timing-debugger-heuristic"
       else mret tt)
    (fun err => console_warn ["[antiDebug] Error during detection"; err]).

(** The function handed to [setInterval]. *)
Definition tick : M unit :=
  c ← get (fun p => closures p AntiDebug);
  if negb (already c) then runChecks else mret tt.

Definition startAntiDebug (config : option Config) : M unit :=
  let onDetected := destructure config "onDetected" in
  console_log ["[antiDebug] Anti-debugging initialized"];;
  modify (with_closure AntiDebug (fun _ =>
    {| already := false; intervalId := None; callback := onDetected |}));;
  runChecks;;
  id ← setInterval AntiDebug DETECTION_INTERVAL_MS;
  modify (with_closure AntiDebug (set_intervalId (Some id))).

End antiDebug.

(** ** [security/domGuard.js] *)
Module domGuard.

Definition CHECK_INTERVAL_MS : Z := 3000.
Definition TEXT_CHANGE_FACTOR : Q := 3.

Definition PROTECTED_SELECTORS : list string :=
  [".app-main"; "#task-form"; ".task-filters"; "#task-list"].

(** [document.querySelector(selector)] *)
Definition querySelector (selector : string) : M (option Element) :=
  get (fun p => elements (document (host p)) !! selector).

(** [(el.textContent || '').length] *)
Definition textLen (el : Element) : M nat :=
  t ← read (fun _ => textContent el);
  mret (String.length (default "" t)).

Definition num (n : nat) : Q := inject_Z (Z.of_nat n).

Fixpoint snapshot_from (selectors : list string) (snapshot : list SnapshotItem)
    : M (list SnapshotItem) :=
  match selectors with
  | [] => mret snapshot
  | selector :: rest =>
      el ← querySelector selector;
      len ← match el with
            | Some e => textLen e
            | None => mret 0%nat
            end;
      snapshot_from rest
        (snapshot ++ [{| selector := selector;
                         exists_ := bool_decide (is_Some el);
                         textLength := len |}])
  end.

Definition snapshotDom : M (list SnapshotItem) :=
  snapshot_from PROTECTED_SELECTORS [].

(** One round of the loop of [isTampered]: [true] is [return true],
    [false] goes on to the next item. *)
Definition itemTampered (item : SnapshotItem) : M bool :=
  el ← querySelector (selector item);
  match el with
  | None =>
      if exists_ item then
        console_warn ["[domGuard] Element disappeared:"; selector item];;
        mret true
      else mret false
  | Some e =>
      if exists_ item then
        currentTextLength ← textLen e;
        let maxLen := Nat.max 1 (textLength item) in
        let ratio :=
          if (maxLen <? currentTextLength)%nat
          then (num currentTextLength / num maxLen)%Q
          else (num maxLen / num (Nat.max 1 currentTextLength))%Q in
        if Qgtb ratio TEXT_CHANGE_FACTOR then
          console_warn ["[domGuard] Element text length changed a lot:";
                        selector item;
                        "initial ="; pretty (textLength item);
                        "current ="; pretty currentTextLength];;
          mret true
        else mret false
      else mret false
  end.

Fixpoint isTampered (initialSnapshot : list SnapshotItem) : M bool :=
  match initialSnapshot with
  | [] => mret false
  | item :: rest =>
      hit ← itemTampered item;
      if (hit : bool) then mret true else isTampered rest
  end.

Definition triggerTamper : string -> M unit := trigger DomGuard.

Definition runCheck : M unit :=
  try_catch (A := unit)
    (snapshot ← get initialSnapshot;
     tampered ← isTampered snapshot;
     if (tampered : bool) then triggerTamper "snapshot-mismatch" else mret tt)
    (fun err => console_warn ["[domGuard] Error during DOM check"; err]).

Definition tick : M unit :=
  c ← get (fun p => closures p DomGuard);
  if negb (already c) then runCheck else mret tt.

Definition set_initialSnapshot (s : list SnapshotItem) (p : Page) : Page :=
  {| host := host p; timers := timers p; next_timer := next_timer p;
     calls := calls p; closures := closures p;
     initialSnapshot := s; sd_originalHash := sd_originalHash p |}.

Definition startDomGuard (config : option Config) : M unit :=
  let onTamper := destructure config "onTamper" in
  console_log ["[domGuard] DOM guard initialized"];;
  snapshot ← snapshotDom;
  modify (set_initialSnapshot snapshot);;
  modify (with_closure DomGuard (fun _ =>
    {| already := false; intervalId := None; callback := onTamper |}));;
  runCheck;;
  id ← setInterval DomGuard CHECK_INTERVAL_MS;
  modify (with_closure DomGuard (set_intervalId (Some id))).

End domGuard.

(** ** [security/selfDefend.js] *)
Module selfDefend.

Definition SELFDEFEND_CHECK_INTERVAL_MS : Z := 4000.

(** [hash = (hash + str.charCodeAt(i)) >>> 0] for each [i] in order. *)
Definition simpleHash (str : list Z) : Z :=
  fold_left (fun hash c => (hash + c) mod 2 ^ 32) str 0.

(** The text that [checkIntegrity.toString()] returns. *)
Definition checkIntegrity_source : string :=
"function checkIntegrity() {
  // This comment is part of the protected source.
  // Changing this function in DevTools should trigger the self-defend logic.
  return 'ok';
}".

Definition checkIntegrity : jsval := VFun (units checkIntegrity_source).

(** Calling the canary: it returns ['ok'] and touches nothing. *)
Definition call_checkIntegrity : M string := mret "ok".

Definition triggerFail : string -> M unit := trigger SelfDefend.

(** [info?.targetFn] *)
Definition targetFn_of (info : option SelfDefendInfo) : jsval :=
  match info with
  | Some i => targetFn i
  | None => VUndefined
  end.

(** [a || b] *)
Definition js_or (a b : jsval) : jsval := if truthy a then a else b.

Definition runCheck : M unit :=
  try_catch (A := unit)
    (info ← get (fun p => selfDefendInfo (window (host p)));
     let currentFn := js_or (targetFn_of info) checkIntegrity in
     currentSource ← read (fun _ => toString currentFn);
     let currentHash := simpleHash currentSource in
     originalHash ← get sd_originalHash;
     if negb (currentHash =? originalHash) then
       triggerFail "function-source-changed"
     else mret tt)
    (fun err => console_warn ["[selfDefend] Error during integrity check"; err]).

Definition tick : M unit :=
  c ← get (fun p => closures p SelfDefend);
  if negb (already c) then runCheck else mret tt.

Definition set_originalHash (z : Z) (p : Page) : Page :=
  {| host := host p; timers := timers p; next_timer := next_timer p;
     calls := calls p; closures := closures p;
     initialSnapshot := initialSnapshot p; sd_originalHash := z |}.

Definition set_selfDefendInfo (i : option SelfDefendInfo) (w : Window) : Window :=
  {| outerWidth := outerWidth w; innerWidth := innerWidth w;
     outerHeight := outerHeight w; innerHeight := innerHeight w;
     performance_now := performance_now w; clock_reads := clock_reads w;
     selfDefendInfo := i |}.

Definition startSelfDefend (config : option Config) : M unit :=
  let onFail := destructure config "onFail" in
  console_log ["[selfDefend] Self-defend initialized"];;
  originalSource ← read (fun _ => toString checkIntegrity);
  let originalHash := simpleHash originalSource in
  modify (set_originalHash originalHash);;
  modify (with_host (with_window (set_selfDefendInfo
    (Some {| targetFn := checkIntegrity; originalHash := VNum originalHash |}))));;
  modify (with_closure SelfDefend (fun _ =>
    {| already := false; intervalId := None; callback := onFail |}));;
  runCheck;;
  id ← setInterval SelfDefend SELFDEFEND_CHECK_INTERVAL_MS;
  modify (with_closure SelfDefend (set_intervalId (Some id))).

End selfDefend.

(** ** [ui.js] and [app.js]: the lock action and the wiring *)
Module app.

(** [document.getElementById(id)] *)
Definition getElementById (doc : Document) (id : string) : option Element :=
  elements doc !! ("#" ++ id)%string.

Definition set_element (id : string) (el : Element) (doc : Document) : Document :=
  {| elements := <[("#" ++ id)%string := el]> (elements doc); buttons := buttons doc |}.

(** [text || ''] on a string *)
Definition or_empty (text : string) : string :=
  match text with
  | EmptyString => ""
  | _ => text
  end.

Definition setSecurityMessage (text : string) (h : Host) : Host :=
  match getElementById (document h) "security-message" with
  | Some messageEl =>
      with_document (set_element "security-message"
        {| textContent := Val (Some (or_empty text));
           opacity := opacity messageEl;
           pointerEvents := pointerEvents messageEl |}) h
  | None => h
  end.

Definition disable (btn : Button) : Button :=
  {| label := label btn; disabled := true |}.

Definition lockApp (message : string) (h : Host) : Host :=
  let h := setSecurityMessage message h in
  (* Disable the task form *)
  let h :=
    match getElementById (document h) "task-form" with
    | Some form =>
        with_document (set_element "task-form"
          {| textContent := textContent form;
             opacity := "0.5";
             pointerEvents := "none" |}) h
    | None => h
    end in
  (* Disable all buttons *)
  let h :=
    with_document (fun doc =>
      {| elements := elements doc; buttons := disable <$> buttons doc |}) h in
  with_console
    (LWarn, ["[app] App locked due to security event:"; message]) h.

(** [() => { lockApp(message); }] *)
Definition locking (message : string) : Callback :=
  fun _ h => (Normal tt, lockApp message h).

Definition onTamper : Callback := locking "DOM tampering detected. App locked.".
Definition onFail : Callback := locking "Integrity check failed. App locked.".

(** [init], from the point where the task list has been loaded and
    rendered.  The call of [startAntiDebug] is inside a block comment in
    the source and is therefore not part of the function. *)
Definition init : M unit :=
  console_log ["[app] Initializing Secure Tasks"];;
  domGuard.startDomGuard (Some {[ "onTamper" := PFun onTamper ]});;
  selfDefend.startSelfDefend (Some {[ "onFail" := PFun onFail ]}).

(** The messages with which [lockApp] has been run, oldest first. *)
Definition lock_messages (h : Host) : list string :=
  omap (fun e =>
          match e with
          | (LWarn, ["[app] App locked due to security event:"; m]) => Some m
          | _ => None
          end) (console h).

(** The text shown in the message area. *)
Definition shown_message (h : Host) : option string :=
  match getElementById (document h) "security-message" with
  | Some el =>
      match textContent el with
      | Val (Some t) => Some t
      | _ => None
      end
  | None => None
  end.

End app.

(** ** The event loop *)

(** The function that [setInterval] was given by detector [d]. *)
Definition handler (d : detector) : M unit :=
  match d with
  | AntiDebug => antiDebug.tick
  | DomGuard => domGuard.tick
  | SelfDefend => selfDefend.tick
  end.

(** What happens on the page after start-up: an interval timer fires, or
    code outside the detectors changes the host. *)
Inductive event : Type :=
  | Tick (id : nat)
  | External (f : Host -> Host).

Definition step (p : Page) (e : event) : Page :=
  match e with
  | Tick id =>
      match timers p !! id with
      | Some (d, _) => (handler d p).2
      | None => p
      end
  | External f => with_host f p
  end.

Definition run (es : list event) (p : Page) : Page := fold_left step es p.

(** The reason codes with which the callback of [d] was invoked, oldest
    first. *)
Definition invoked (d : detector) (p : Page) : list string :=
  omap (fun c =>
          match c with
          | Invoke d' reason => if decide (d' = d) then Some reason else None
          | _ => None
          end) (calls p).

(** The timers that were cancelled, oldest first. *)
Definition cancelled (p : Page) : list nat :=
  omap (fun c =>
          match c with
          | ClearInterval id => Some id
          | _ => None
          end) (calls p).

(** [trigger d] called once for each reason code in turn, each call a
    separate entry into the routine. *)
Definition triggers (d : detector) (reasons : list string) (p : Page) : Page :=
  fold_left (fun p reason => (trigger d reason p).2) reasons p.

(** The poll routine of detector [d] ([runChecks] or [runCheck]). *)
Definition poll (d : detector) : M unit :=
  match d with
  | AntiDebug => antiDebug.runChecks
  | DomGuard => domGuard.runCheck
  | SelfDefend => selfDefend.runCheck
  end.

(** The warning with which the poll routine of [d] reports a caught
    exception. *)
Definition error_banner (d : detector) : string :=
  match d with
  | AntiDebug => "[antiDebug] Error during detection"
  | DomGuard => "[domGuard] Error during DOM check"
  | SelfDefend => "[selfDefend] Error during integrity check"
  end.

(** ** Vocabulary of the statements *)

(** [m] maintains the page property [I]. *)
Definition keeps {A} (I : Page -> Prop) (m : M A) : Prop :=
  forall p, I p -> I (m p).2.

(** What no tick and no external change can undo, relative to an earlier
    page [p]: the baseline data stay, timers are only ever removed, a set
    flag stays set, and the registered callbacks stay. *)
Record stable (p p' : Page) : Prop := mkStable {
  st_hash : sd_originalHash p' = sd_originalHash p;
  st_snapshot : initialSnapshot p' = initialSnapshot p;
  st_timers : forall id x, timers p' !! id = Some x -> timers p !! id = Some x;
  st_next : next_timer p' = next_timer p;
  st_flag : forall d, already (closures p d) = true -> already (closures p' d) = true;
  st_callback : forall d, callback (closures p' d) = callback (closures p d)
}.

(** Each callback has run at most once, and not at all while the flag of
    its detector is unset. *)
Definition once_only (p : Page) : Prop :=
  forall d, (length (invoked d p) <= 1)%nat /\
            (already (closures p d) = false -> invoked d p = []).

(** The ratio of the design document:
    [max(cur,orig) / max(1, min(cur,orig))]. *)
Definition spec_ratio (cur orig : nat) : Q :=
  (domGuard.num (Nat.max cur orig) / domGuard.num (Nat.max 1 (Nat.min cur orig)))%Q.


(** The value whose source the self-defend poll hashes. *)
Definition currentFn (h : Host) : jsval :=
  selfDefend.js_or (selfDefend.targetFn_of (selfDefendInfo (window h)))
    selfDefend.checkIntegrity.

(** The baseline checksum of the canary. *)
Definition baseline : Z := selfDefend.simpleHash (units selfDefend.checkIntegrity_source).

(** The evaluation of the heuristics of one poll of [d], without the
    trigger: the reason code when the round detects something. *)
Definition detect (d : detector) : M (option string) :=
  match d with
  | AntiDebug =>
      bySize ← antiDebug.isDevToolsOpenBySize;
      if (bySize : bool) then mret (Some "window-size-heuristic")
      else
        byTiming ← antiDebug.isDevToolsOpenByTiming;
        mret (if (byTiming : bool) then Some "timing-debugger-heuristic" else None)
  | DomGuard =>
      snapshot ← get initialSnapshot;
      tampered ← domGuard.isTampered snapshot;
      mret (if (tampered : bool) then Some "snapshot-mismatch" else None)
  | SelfDefend =>
      currentSource ← read (fun h => toString (currentFn h));
      originalHash ← get sd_originalHash;
      mret (if negb (selfDefend.simpleHash currentSource =? originalHash)
            then Some "function-source-changed" else None)
  end.

(** The page after [intervalId = window.setInterval(handler, ms)] in the
    start function of [d]. *)
Definition arm (d : detector) (ms : Z) (q : Page) : Page :=
  with_closure d (set_intervalId (Some (next_timer q)))
    (with_call (SetInterval (next_timer q) d ms)
       (with_timers (insert (next_timer q) (d, ms)) (S (next_timer q)) q)).

(** The page after the closure variables of [d] have been initialised by
    its start function. *)
Definition enter (d : detector) (cb : option prop) (p : Page) : Page :=
  with_closure d (fun _ => {| already := false; intervalId := None; callback := cb |}) p.

(** Detector [d] has no callback to run and has run none. *)
Definition silent (d : detector) (p : Page) : Prop :=
  callback (closures p d) = None /\ invoked d p = [].

(** [q] differs from [p] in the host at most. *)
Definition host_only (p q : Page) : Prop := q = with_host (fun _ => host q) p.

(** ** Example pages *)

Definition el (text : string) : Element :=
  {| textContent := Val (Some text); opacity := "1"; pointerEvents := "auto" |}.

(** A window whose frame is [dw] pixels wider and [dh] pixels higher than
    its viewport, with a clock that advances one millisecond per reading. *)
Definition window_with (dw dh : Z) : Window :=
  {| outerWidth := Val (1280 + dw); innerWidth := Val 1280;
     outerHeight := Val (720 + dh); innerHeight := Val 720;
     performance_now := fun k => Val (inject_Z (Z.of_nat k));
     clock_reads := 0%nat;
     selfDefendInfo := None |}.

Definition demo_document : Document :=
  {| elements :=
       {[ ".app-main" := el "Secure Tasks";
          "#task-form" := el "Add task";
          ".task-filters" := el "All Active Completed";
          "#task-list" := el "";
          "#security-message" := el "" ]};
     buttons := [ {| label := "Add"; disabled := false |};
                  {| label := "All"; disabled := false |} ] |}.

Definition demo_host : Host :=
  {| window := window_with 0 80; document := demo_document; console := [] |}.

(** The page with the inspector docked at the side when it loads. *)
Definition devtools_host : Host :=
  {| window := window_with 200 80; document := demo_document; console := [] |}.

(** A page on which reading [window.outerWidth] raises. *)
Definition broken_host : Host :=
  {| window :=
       {| outerWidth := Raises "outerWidth is not readable"; innerWidth := Val 1280;
          outerHeight := Val 800; innerHeight := Val 720;
          performance_now := fun k => Val (inject_Z (Z.of_nat k));
          clock_reads := 0%nat;
          selfDefendInfo := None |};
     document := demo_document; console := [] |}.

(** External change: the task form is removed from the document. *)
Definition remove_form (h : Host) : Host :=
  with_document (fun doc =>
    {| elements := delete "#task-form" (elements doc); buttons := buttons doc |}) h.

(** External change: [window.__selfDefendInfo.targetFn = v]. *)
Definition replace_handle (v : jsval) (h : Host) : Host :=
  with_window (fun w =>
    selfDefend.set_selfDefendInfo
      (match selfDefendInfo w with
       | Some i => Some {| targetFn := v; originalHash := originalHash i |}
       | None => None
       end) w) h.


(** A routine that differs from the canary only in the order of two
    characters of the returned string. *)
Definition reordered_source : string :=
"function checkIntegrity() {
  // This comment is part of the protected source.
  // Changing this function in DevTools should trigger the self-defend logic.
  return 'ko';
}".

(** The routine of the attack scenario of the explainer. *)
Definition hacked_source : string :=
"function hacked() {
  return 'hacked!';
}".



(** ** Further vocabulary *)

(** The plain sum of the code units of a string. *)
Definition sum_units (str : list Z) : Z := foldr Z.add 0 str.

(** The entry that [snapshotDom] records for [selector] on host [h], when
    the text of the element it finds can be read. *)
Definition entry_of (h : Host) (selector : string) : SnapshotItem :=
  match elements (document h) !! selector with
  | Some e =>
      {| selector := selector; exists_ := true;
         textLength := match textContent e with
                       | Val t => String.length (default "" t)
                       | Raises _ => 0
                       end |}
  | None => {| selector := selector; exists_ := false; textLength := 0 |}
  end.

(** The text of every element that [selectors] finds on [h] can be read. *)
Definition readable (h : Host) (selectors : list string) : Prop :=
  Forall (fun s => forall e, elements (document h) !! s = Some e ->
                             exists t, textContent e = Val t) selectors.


(** ** [storage.js], [ui.js] and the task handlers of [app.js]

    The task list lives in three places: the module variable [tasks] of
    [app.js], the entry of [window.localStorage] that [storage.js] writes,
    and the list items that [ui.js] renders into [#task-list].  The text
    of [#task-list], which the DOM guard measures, is the concatenation of
    the texts of its items; the document keeps it for the selector. *)

Module task.
Record Task : Type := mkTask {
  id : string;
  title : string;
  desc : string;
  completed : bool
}.
End task.

(** What [JSON.parse] can return here: an array of task objects, or
    something that is not an array.  Arrays with other elements are not
    modelled. *)
Inductive parsed : Type :=
  | NotAnArray
  | TaskArray (ts : list task.Task).

(** [JSON.stringify] on a task list and [JSON.parse], as the platform
    provides them. *)
Class Json : Type := {
  JSON_stringify : list task.Task -> string;
  JSON_parse : string -> reading parsed
}.

(** [window.localStorage]: its entries, the longest value it still
    accepts, and whether access to it is denied. *)
Record LocalStorage : Type := mkLocalStorage {
  items : gmap string string;
  capacity : nat;
  denied : bool
}.

(** [localStorage.getItem(key)] *)
Definition getItem (key : string) (ls : LocalStorage) : reading (option string) :=
  if denied ls then Raises "SecurityError" else Val (items ls !! key).

(** [localStorage.setItem(key, value)] *)
Definition setItem (key value : string) (ls : LocalStorage) : reading LocalStorage :=
  if denied ls then Raises "SecurityError"
  else if (capacity ls <? String.length value)%nat then Raises "QuotaExceededError"
  else Val {| items := <[key := value]> (items ls);
              capacity := capacity ls; denied := denied ls |}.

(** One [<li>] of the rendered list: its class, [dataset.id], the state of
    its checkbox, the title, the description when it is shown; its Delete
    button is always there. *)
Record Li : Type := mkLi {
  className : string;
  dataset_id : string;
  checked : bool;
  titleText : string;
  descText : option string
}.

(** The children of [#task-list] and [style.display] of [#empty-state]. *)
Record TaskView : Type := mkTaskView {
  listItems : list Li;
  emptyDisplay : string
}.

(** The module variables of [app.js], the storage and the rendered list. *)
Record App : Type := mkApp {
  tasks : list task.Task;
  currentFilter : string;
  localStorage : LocalStorage;
  view : TaskView
}.

Definition set_tasks (ts : list task.Task) (a : App) : App :=
  {| tasks := ts; currentFilter := currentFilter a;
     localStorage := localStorage a; view := view a |}.

Definition set_currentFilter (f : string) (a : App) : App :=
  {| tasks := tasks a; currentFilter := f;
     localStorage := localStorage a; view := view a |}.

Definition set_localStorage (ls : LocalStorage) (a : App) : App :=
  {| tasks := tasks a; currentFilter := currentFilter a;
     localStorage := ls; view := view a |}.

Definition set_view (v : TaskView) (a : App) : App :=
  {| tasks := tasks a; currentFilter := currentFilter a;
     localStorage := localStorage a; view := v |}.

Module storage.

Definition STORAGE_KEY : string := "secureTasks_v1".

(** [!raw] for what [getItem] returns: null or the empty string. *)
Definition falsy_raw (raw : option string) : bool :=
  match raw with
  | None => true
  | Some EmptyString => true
  | Some _ => false
  end.

Definition loadTasks `{Json} (a : App) (h : Host) : list task.Task * Host :=
  match getItem STORAGE_KEY (localStorage a) with
  | Raises err =>
      ([], with_console (LWarn, ["Failed to load tasks from localStorage"; err]) h)
  | Val raw =>
      if falsy_raw raw then ([], h)
      else
        match JSON_parse (default "" raw) with
        | Raises err =>
            ([], with_console (LWarn, ["Failed to load tasks from localStorage"; err]) h)
        | Val NotAnArray => ([], h)
        | Val (TaskArray ts) => (ts, h)
        end
  end.

Definition saveTasks `{Json} (ts : list task.Task) (a : App) (h : Host) : App * Host :=
  match setItem STORAGE_KEY (JSON_stringify ts) (localStorage a) with
  | Val ls => (set_localStorage ls a, h)
  | Raises err =>
      (a, with_console (LWarn, ["Failed to save tasks to localStorage"; err]) h)
  end.

End storage.

Module ui.

(** The characters that [trim] removes, among the first 256. *)
Definition is_space (c : Ascii.ascii) : bool :=
  let n := Ascii.N_of_ascii c in
  ((9 <=? n) && (n <=? 13) || (n =? 32) || (n =? 160))%N.

(** [s.trim().length > 0] fails *)
Definition blank (s : string) : bool :=
  forallb is_space (String.list_ascii_of_string s).

(** [tasks.filter(...)] for the filter chosen; any other filter keeps all. *)
Definition visible (ts : list task.Task) (filter : string) : list task.Task :=
  if String.eqb filter "active" then List.filter (fun t => negb (task.completed t)) ts
  else if String.eqb filter "completed" then List.filter (fun t => task.completed t) ts
  else ts.

(** The [<li>] built for one task. *)
Definition render (t : task.Task) : Li :=
  {| className := ("task-item" ++ (if task.completed t then " completed" else ""))%string;
     dataset_id := task.id t;
     checked := task.completed t;
     titleText := task.title t;
     descText := if negb (blank (task.desc t)) then Some (task.desc t) else None |}.

(** [li.textContent]: title, description when shown, and the label of the
    Delete button. *)
Definition li_text (li : Li) : string :=
  (titleText li ++ default "" (descText li) ++ "Delete")%string.

Definition list_text (lis : list Li) : string :=
  foldr (fun li rest => (li_text li ++ rest)%string) "" lis.

(** The children of [#task-list] become [lis].  The Delete button of an
    item stays with the item: [buttons] of the document is not updated
    for the buttons created here. *)
Definition set_list (listEl : Element) (lis : list Li) (h : Host) : Host :=
  with_document (app.set_element "task-list"
    {| textContent := Val (Some (list_text lis));
       opacity := opacity listEl;
       pointerEvents := pointerEvents listEl |}) h.

Definition renderTasks (ts : list task.Task) (filter : string)
    (v : TaskView) (h : Host) : TaskView * Host :=
  match app.getElementById (document h) "task-list",
        app.getElementById (document h) "empty-state" with
  | Some listEl, Some emptyStateEl =>
      let filtered := visible ts filter in
      (* listEl.innerHTML = '' *)
      match filtered with
      | [] => ({| listItems := []; emptyDisplay := "block" |}, set_list listEl [] h)
      | _ => ({| listItems := render <$> filtered; emptyDisplay := "none" |},
              set_list listEl (render <$> filtered) h)
      end
  | _, _ => (v, h)
  end.

End ui.

(** The task handlers of [app.js]. *)
Module handlers.

(** [createTask]; [uuid] is the identifier the platform produced. *)
Definition createTask (uuid title desc : string) : task.Task :=
  {| task.id := uuid; task.title := title; task.desc := desc; task.completed := false |}.

(** [saveTasks(tasks); renderTasks(tasks, currentFilter)] *)
Definition save_and_render `{Json} (a : App) (h : Host) : App * Host :=
  let '(a, h) := storage.saveTasks (tasks a) a h in
  let '(v, h) := ui.renderTasks (tasks a) (currentFilter a) (view a) h in
  (set_view v a, h).

Definition addTask `{Json} (uuid title desc : string) (a : App) (h : Host) : App * Host :=
  let newTask := createTask uuid title desc in
  save_and_render (set_tasks (newTask :: tasks a) a) h.

Definition toggle (id : string) (t : task.Task) : task.Task :=
  if String.eqb (task.id t) id
  then {| task.id := task.id t; task.title := task.title t; task.desc := task.desc t;
          task.completed := negb (task.completed t) |}
  else t.

Definition toggleTask `{Json} (id : string) (a : App) (h : Host) : App * Host :=
  save_and_render (set_tasks (toggle id <$> tasks a) a) h.

Definition deleteTask `{Json} (id : string) (a : App) (h : Host) : App * Host :=
  save_and_render
    (set_tasks (List.filter (fun t => negb (String.eqb (task.id t) id)) (tasks a)) a) h.

Definition setFilter (filter : string) (a : App) (h : Host) : App * Host :=
  let a := set_currentFilter filter a in
  let '(v, h) := ui.renderTasks (tasks a) (currentFilter a) (view a) h in
  (set_view v a, h).

(** The module variables as [app.js] declares them. *)
Definition initial (ls : LocalStorage) (v : TaskView) : App :=
  {| tasks := []; currentFilter := "all"; localStorage := ls; view := v |}.

(** The start of the two detectors at the end of [init]. *)
Definition start_detectors : M unit :=
  domGuard.startDomGuard (Some {[ "onTamper" := PFun app.onTamper ]});;
  selfDefend.startSelfDefend (Some {[ "onFail" := PFun app.onFail ]}).

(** [init] in full: the task list is loaded and rendered ([initUI] only
    registers listeners), then the detectors are started on the page as
    rendered. *)
Definition init `{Json} (a : App) (h : Host) : App * (completion unit * Page) :=
  let h := with_console (LLog, ["[app] Initializing Secure Tasks"]) h in
  let '(ts, h) := storage.loadTasks a h in
  let a := set_tasks ts a in
  let '(v, h) := ui.renderTasks (tasks a) (currentFilter a) (view a) h in
  (set_view v a, start_detectors (load h)).

End handlers.

(** What the user does with the task list. *)
Inductive action : Type :=
  | Add (uuid title desc : string)
  | Toggle (id : string)
  | Delete (id : string)
  | SetFilter (filter : string).

Definition perform `{Json} (act : action) (a : App) (h : Host) : App * Host :=
  match act with
  | Add uuid title desc => handlers.addTask uuid title desc a h
  | Toggle id => handlers.toggleTask id a h
  | Delete id => handlers.deleteTask id a h
  | SetFilter filter => handlers.setFilter filter a h
  end.

Definition perform_all `{Json} (acts : list action) (a : App) (h : Host) : App * Host :=
  fold_left (fun s act => perform act s.1 s.2) acts (a, h).

(** The rendered list is the one for the current tasks and filter, and
    the document holds its text for [#task-list]. *)
Definition shows (a : App) (h : Host) : Prop :=
  listItems (view a) = ui.render <$> ui.visible (tasks a) (currentFilter a) /\
  emptyDisplay (view a)
  = (if ui.visible (tasks a) (currentFilter a) is [] then "block" else "none") /\
  exists listEl,
    elements (document h) !! "#task-list" = Some listEl /\
    textContent listEl = Val (Some (ui.list_text (listItems (view a)))).

(** The document has the two elements that [renderTasks] needs. *)
Definition has_list (h : Host) : Prop :=
  is_Some (elements (document h) !! "#task-list") /\
  is_Some (elements (document h) !! "#empty-state").

(** What the user's action does to the host, as an external change of
    the page the detectors watch. *)
Definition by_user `{Json} (act : action) (a : App) : Host -> Host :=
  fun h => (perform act a h).2.

(** A stand-in for the platform's serialisation in the examples: it keeps
    the number of tasks only, and parses back copies of one fixed task. *)
Definition unary_json : Json :=
  {| JSON_stringify := fun ts =>
       String.string_of_list_ascii (replicate (S (length ts)) (Ascii.ascii_of_nat 120));
     JSON_parse := fun s =>
       Val (TaskArray (replicate (Nat.pred (String.length s))
                         (handlers.createTask "1" "t" ""))) |}.

(** A page on which the text of the task form cannot be read. *)
Definition unreadable_host : Host :=
  with_document (fun doc =>
    {| elements :=
         <["#task-form" := {| textContent := Raises "textContent is not readable";
                              opacity := "1"; pointerEvents := "auto" |}]> (elements doc);
       buttons := buttons doc |}) demo_host.

(** The demo page with its empty-state element, and the module variables
    of [app.js] over a storage that holds nothing yet. *)
Definition tasks_host : Host :=
  with_document (app.set_element "empty-state" (el "No tasks yet")) demo_host.

Definition fresh_app : App :=
  handlers.initial {| items := ∅; capacity := 100; denied := false |}
                   {| listItems := []; emptyDisplay := "" |}.

(** * Properties *)

Arguments antiDebug.runChecks : simpl never.
Arguments domGuard.runCheck : simpl never.
Arguments selfDefend.runCheck : simpl never.
Arguments domGuard.snapshotDom : simpl never.
Arguments selfDefend.simpleHash : simpl never.
Arguments units : simpl never.
Arguments trigger : simpl never.
Arguments try_catch : simpl never.

Ltac unfold_m :=
  unfold mbind, M_bind, mret, M_ret, get, modify, read, try_catch,
    console_warn, console_log, call_host, clearInterval, setInterval in *.

(** ** The monad *)

Lemma keeps_ret {A} (I : Page -> Prop) (a : A) : keeps I (mret a).
Proof. intros p Hp. exact Hp. Qed.

Lemma keeps_bind {A B} (I : Page -> Prop) (m : M A) (f : A -> M B) :
  keeps I m -> (forall a, keeps I (f a)) -> keeps I (m ≫= f).
Proof.
  intros Hm Hf p Hp. unfold mbind, M_bind.
  specialize (Hm p Hp). destruct (m p) as [[a|e] p']; simpl in *.
  - apply Hf, Hm.
  - exact Hm.
Qed.

Lemma keeps_try_catch {A} (I : Page -> Prop) (body : M A) (handler : exn -> M A) :
  keeps I body -> (forall e, keeps I (handler e)) -> keeps I (try_catch body handler).
Proof.
  intros Hm Hf p Hp. unfold try_catch.
  specialize (Hm p Hp). destruct (body p) as [[a|e] p']; simpl in *.
  - exact Hm.
  - apply Hf, Hm.
Qed.

Lemma keeps_get {A} (I : Page -> Prop) (f : Page -> A) : keeps I (get f).
Proof. intros p Hp. exact Hp. Qed.

Lemma keeps_read {A} (I : Page -> Prop) (f : Host -> reading A) : keeps I (read f).
Proof. intros p Hp. unfold read. destruct (f (host p)); exact Hp. Qed.

Lemma keeps_modify (I : Page -> Prop) (f : Page -> Page) :
  (forall p, I p -> I (f p)) -> keeps I (modify f).
Proof. intros Hf p Hp. apply Hf, Hp. Qed.

Lemma keeps_if {A} (I : Page -> Prop) (b : bool) (m1 m2 : M A) :
  keeps I m1 -> keeps I m2 -> keeps I (if b then m1 else m2).
Proof. destruct b; auto. Qed.

(** A try block never lets an exception out when its handler does not
    throw. *)
Lemma try_catch_normal (body : M unit) (handler : exn -> M unit) p :
  (forall e q, (handler e q).1 = Normal tt) ->
  (try_catch body handler p).1 = Normal tt.
Proof.
  intros Hh. unfold try_catch. destruct (body p) as [[[]|e] p']; simpl.
  - reflexivity.
  - apply Hh.
Qed.

(** ** The trigger routine *)

Lemma trigger_done d reason p :
  already (closures p d) = true -> trigger d reason p = (Normal tt, p).
Proof. intros H. unfold trigger. unfold_m. rewrite H. reflexivity. Qed.

(** The page after the bookkeeping of a first trigger: flag set, warning
    written, timer cancelled when there is one. *)
Lemma trigger_fresh d reason p :
  already (closures p d) = false ->
  let p1 := with_host (with_console (LWarn, [trigger_banner d; reason]))
              (with_closure d (set_already true) p) in
  let p2 := match intervalId (closures p d) with
            | Some id =>
                with_closure d (set_intervalId None)
                  (with_call (ClearInterval id)
                     (with_timers (delete id) (next_timer p) p1))
            | None => p1
            end in
  trigger d reason p =
    match callback (closures p d) with
    | Some (PFun f) => call_host (f reason) (with_call (Invoke d reason) p2)
    | _ => (Normal tt, p2)
    end.
Proof.
  intros H. unfold trigger. unfold_m. rewrite H.
  destruct (intervalId (closures p d)) as [id|];
    destruct (callback (closures p d)) as [[f|v]|]; reflexivity.
Qed.

Lemma invoked_with_call d c p :
  invoked d (with_call c p) =
  invoked d p ++ match c with
                 | Invoke d' reason => if decide (d' = d) then [reason] else []
                 | _ => []
                 end.
Proof.
  unfold invoked, with_call; simpl. rewrite omap_app. f_equal.
  destruct c as [id d' ms|id|d' reason]; simpl; try reflexivity.
  destruct (decide (d' = d)); reflexivity.
Qed.

Lemma cancelled_with_call c p :
  cancelled (with_call c p) =
  cancelled p ++ match c with ClearInterval id => [id] | _ => [] end.
Proof.
  unfold cancelled, with_call; simpl. rewrite omap_app. f_equal.
  destruct c; reflexivity.
Qed.

Ltac trigger_cases d reason p H :=
  rewrite (trigger_fresh d reason p H); cbv zeta;
  destruct (intervalId (closures p d)) as [?id|] eqn:?Hid;
  destruct (callback (closures p d)) as [[?f|?v]|] eqn:?Hcb;
  unfold call_host; simpl;
  try match goal with
      | |- context [?f reason ?h] => destruct (f reason h) as [? ?]; simpl
      end.

Lemma trigger_sets_flag d reason p :
  already (closures (trigger d reason p).2 d) = true.
Proof.
  destruct (already (closures p d)) eqn:H.
  - rewrite trigger_done by exact H. exact H.
  - trigger_cases d reason p H; rewrite ?decide_True by reflexivity; reflexivity.
Qed.

Lemma trigger_clears_handle d reason p :
  already (closures p d) = false ->
  intervalId (closures (trigger d reason p).2 d) = None.
Proof.
  intros H.
  trigger_cases d reason p H; rewrite ?decide_True by reflexivity; simpl;
    try reflexivity; exact Hid.
Qed.

Lemma trigger_other_closure d d' reason p :
  d' <> d -> closures (trigger d reason p).2 d' = closures p d'.
Proof.
  intros Hne. destruct (already (closures p d)) eqn:H.
  - rewrite trigger_done by exact H. reflexivity.
  - trigger_cases d reason p H; rewrite ?decide_False by exact Hne; reflexivity.
Qed.

Lemma trigger_callback d d' reason p :
  callback (closures (trigger d reason p).2 d') = callback (closures p d').
Proof.
  destruct (decide (d' = d)) as [->|Hne].
  - destruct (already (closures p d)) eqn:H.
    + rewrite trigger_done by exact H. reflexivity.
    + trigger_cases d reason p H; rewrite ?decide_True by reflexivity; simpl;
        rewrite ?decide_True by reflexivity; simpl; rewrite ?Hcb; reflexivity.
  - rewrite trigger_other_closure by exact Hne. reflexivity.
Qed.

(** A first trigger invokes the callback, when it is a function, with the
    reason code it was given. *)
Lemma trigger_invoked d reason p :
  already (closures p d) = false ->
  invoked d (trigger d reason p).2 =
  invoked d p ++ match callback (closures p d) with
                 | Some (PFun _) => [reason]
                 | _ => []
                 end.
Proof.
  intros H.
  trigger_cases d reason p H;
    unfold invoked; simpl; rewrite ?omap_app; simpl;
    rewrite ?decide_True by reflexivity; rewrite ?app_nil_r; reflexivity.
Qed.

Lemma trigger_invoked_other d d' reason p :
  d' <> d -> invoked d' (trigger d reason p).2 = invoked d' p.
Proof.
  intros Hne. destruct (already (closures p d)) eqn:H.
  - rewrite trigger_done by exact H. reflexivity.
  - assert (Hne' : d <> d') by congruence.
    trigger_cases d reason p H;
      unfold invoked; simpl; rewrite ?omap_app; simpl;
      rewrite ?decide_False by exact Hne'; rewrite ?app_nil_r; reflexivity.
Qed.

(** A first trigger cancels the timer whose handle it holds, and no
    other. *)
Lemma trigger_cancelled d reason p :
  already (closures p d) = false ->
  cancelled (trigger d reason p).2 =
  cancelled p ++ match intervalId (closures p d) with
                 | Some id => [id]
                 | None => []
                 end.
Proof.
  intros H.
  trigger_cases d reason p H;
    unfold cancelled; simpl; rewrite ?omap_app; simpl;
    rewrite ?app_nil_r; reflexivity.
Qed.

Lemma trigger_timers d reason p :
  already (closures p d) = false ->
  timers (trigger d reason p).2 =
  match intervalId (closures p d) with
  | Some id => delete id (timers p)
  | None => timers p
  end.
Proof. intros H. trigger_cases d reason p H; reflexivity. Qed.

Lemma trigger_stable d reason p : stable p (trigger d reason p).2.
Proof.
  destruct (already (closures p d)) eqn:H.
  - rewrite trigger_done by exact H. split; auto.
  - split.
    + trigger_cases d reason p H; reflexivity.
    + trigger_cases d reason p H; reflexivity.
    + intros id x. rewrite trigger_timers by exact H.
      destruct (intervalId (closures p d)) as [i|]; [|auto].
      intros Hl. apply lookup_delete_Some in Hl. tauto.
    + trigger_cases d reason p H; reflexivity.
    + intros d' Hd'. destruct (decide (d' = d)) as [->|Hne].
      * apply trigger_sets_flag.
      * rewrite trigger_other_closure by exact Hne. exact Hd'.
    + intros d'. apply trigger_callback.
Qed.

(** ** Page properties that do not look at the host *)

Section HostInsensitive.

Variable I : Page -> Prop.
Hypothesis I_host : forall f p, I p -> I (with_host f p).
Hypothesis I_trigger : forall d reason, keeps I (trigger d reason).

Lemma keeps_console_warn parts : keeps I (console_warn parts).
Proof. apply keeps_modify. intros p. apply I_host. Qed.

Lemma keeps_performance_now : keeps I performance_now_call.
Proof.
  intros p Hp. unfold performance_now_call.
  destruct (performance_now (window (host p)) (clock_reads (window (host p))));
    simpl; apply I_host, Hp.
Qed.

Lemma keeps_isDevToolsOpenBySize : keeps I antiDebug.isDevToolsOpenBySize.
Proof.
  unfold antiDebug.isDevToolsOpenBySize.
  repeat (apply keeps_bind; [apply keeps_read | intros ?]).
  apply keeps_ret.
Qed.

Lemma keeps_isDevToolsOpenByTiming : keeps I antiDebug.isDevToolsOpenByTiming.
Proof.
  unfold antiDebug.isDevToolsOpenByTiming.
  repeat (apply keeps_bind; [apply keeps_performance_now | intros ?]).
  apply keeps_ret.
Qed.

Lemma keeps_textLen e : keeps I (domGuard.textLen e).
Proof.
  unfold domGuard.textLen. apply keeps_bind; [apply keeps_read | intros ?].
  apply keeps_ret.
Qed.

Lemma keeps_itemTampered item : keeps I (domGuard.itemTampered item).
Proof.
  unfold domGuard.itemTampered, domGuard.querySelector.
  apply keeps_bind; [apply keeps_get | intros [e|]].
  - apply keeps_if; [|apply keeps_ret].
    apply keeps_bind; [apply keeps_textLen | intros cur].
    apply keeps_if; [|apply keeps_ret].
    apply keeps_bind; [apply keeps_console_warn | intros ?]. apply keeps_ret.
  - apply keeps_if; [|apply keeps_ret].
    apply keeps_bind; [apply keeps_console_warn | intros ?]. apply keeps_ret.
Qed.

Lemma keeps_isTampered snapshot : keeps I (domGuard.isTampered snapshot).
Proof.
  induction snapshot as [|item rest IH]; simpl.
  - apply keeps_ret.
  - apply keeps_bind; [apply keeps_itemTampered | intros hit].
    apply keeps_if; [apply keeps_ret | exact IH].
Qed.

Lemma keeps_poll d : keeps I (poll d).
Proof.
  destruct d; simpl.
  - unfold antiDebug.runChecks, antiDebug.triggerDetection.
    apply keeps_try_catch; [|intros e; apply keeps_console_warn].
    apply keeps_bind; [apply keeps_isDevToolsOpenBySize | intros b].
    apply keeps_if; [apply I_trigger|].
    apply keeps_bind; [apply keeps_isDevToolsOpenByTiming | intros b'].
    apply keeps_if; [apply I_trigger | apply keeps_ret].
  - unfold domGuard.runCheck, domGuard.triggerTamper.
    apply keeps_try_catch; [|intros e; apply keeps_console_warn].
    apply keeps_bind; [apply keeps_get | intros s].
    apply keeps_bind; [apply keeps_isTampered | intros b].
    apply keeps_if; [apply I_trigger | apply keeps_ret].
  - unfold selfDefend.runCheck, selfDefend.triggerFail.
    apply keeps_try_catch; [|intros e; apply keeps_console_warn].
    apply keeps_bind; [apply keeps_get | intros info].
    apply keeps_bind; [apply keeps_read | intros src].
    apply keeps_bind; [apply keeps_get | intros h].
    apply keeps_if; [apply I_trigger | apply keeps_ret].
Qed.

Lemma keeps_handler d : keeps I (handler d).
Proof.
  destruct d; simpl;
    [unfold antiDebug.tick | unfold domGuard.tick | unfold selfDefend.tick];
    (apply keeps_bind; [apply keeps_get | intros c];
     apply keeps_if; [|apply keeps_ret]).
  - apply (keeps_poll AntiDebug).
  - apply (keeps_poll DomGuard).
  - apply (keeps_poll SelfDefend).
Qed.

Lemma keeps_step p e : I p -> I (step p e).
Proof.
  intros Hp. destruct e as [id|f]; simpl.
  - destruct (timers p !! id) as [[d ms]|]; [|exact Hp].
    apply keeps_handler, Hp.
  - apply I_host, Hp.
Qed.

Lemma keeps_run es p : I p -> I (run es p).
Proof.
  revert p. induction es as [|e es IH]; intros p Hp; simpl.
  - exact Hp.
  - apply IH, keeps_step, Hp.
Qed.

End HostInsensitive.

(** ** What ticks and external changes cannot undo *)

Lemma stable_refl p : stable p p.
Proof. split; auto. Qed.

Lemma stable_trans p q r : stable p q -> stable q r -> stable p r.
Proof.
  intros [h1 s1 t1 n1 f1 c1] [h2 s2 t2 n2 f2 c2]. split.
  - congruence.
  - congruence.
  - intros id x Hx. apply t1, t2, Hx.
  - congruence.
  - intros d Hd. apply f2, f1, Hd.
  - intros d. rewrite c2. apply c1.
Qed.

Lemma stable_with_host f p : stable p (with_host f p).
Proof. split; auto. Qed.

Lemma run_stable es p : stable p (run es p).
Proof.
  apply (keeps_run (stable p)).
  - intros f q Hq. eapply stable_trans; [exact Hq | apply stable_with_host].
  - intros d reason q Hq. eapply stable_trans; [exact Hq | apply trigger_stable].
  - apply stable_refl.
Qed.

Lemma trigger_once_only d reason : keeps once_only (trigger d reason).
Proof.
  intros p Hp d'. destruct (decide (d' = d)) as [->|Hne].
  - destruct (already (closures p d)) eqn:H.
    + rewrite trigger_done by exact H. apply Hp.
    + destruct (Hp d) as [_ Hnone]. split.
      * rewrite trigger_invoked by exact H. rewrite (Hnone H).
        destruct (callback (closures p d)) as [[f|v]|]; simpl; lia.
      * rewrite trigger_sets_flag. discriminate.
  - rewrite trigger_invoked_other, trigger_other_closure by exact Hne. apply Hp.
Qed.

Lemma run_once_only es p : once_only p -> once_only (run es p).
Proof.
  apply (keeps_run once_only).
  - intros f q Hq. exact Hq.
  - apply trigger_once_only.
Qed.

(** ** The poll routines never throw *)

Lemma console_warn_normal parts q : (console_warn parts q).1 = Normal tt.
Proof. reflexivity. Qed.

Lemma poll_normal d p : (poll d p).1 = Normal tt.
Proof.
  destruct d; simpl;
    [unfold antiDebug.runChecks | unfold domGuard.runCheck | unfold selfDefend.runCheck];
    apply try_catch_normal; intros e q; apply console_warn_normal.
Qed.

Lemma handler_normal d p : (handler d p).1 = Normal tt.
Proof.
  destruct d; simpl;
    [unfold antiDebug.tick | unfold domGuard.tick | unfold selfDefend.tick];
    unfold mbind, M_bind, get; simpl.
  - destruct (already (closures p AntiDebug)); [reflexivity|]. apply (poll_normal AntiDebug).
  - destruct (already (closures p DomGuard)); [reflexivity|]. apply (poll_normal DomGuard).
  - destruct (already (closures p SelfDefend)); [reflexivity|]. apply (poll_normal SelfDefend).
Qed.

(** A tick of a detector whose flag is unset is one run of its poll
    routine; with the flag set it does nothing. *)
Lemma handler_poll d p :
  handler d p = if already (closures p d) then (Normal tt, p) else poll d p.
Proof.
  destruct d; simpl;
    [unfold antiDebug.tick | unfold domGuard.tick | unfold selfDefend.tick];
    unfold mbind, M_bind, get; simpl;
    match goal with |- context [already ?c] => destruct (already c) end; reflexivity.
Qed.

(** A poll evaluates the heuristics and, when they give a reason, enters
    the trigger with it; an exception of either is caught and logged. *)
Lemma poll_detect d p :
  poll d p =
  match detect d p with
  | (Normal (Some reason), q) =>
      try_catch (trigger d reason)
        (fun err => console_warn [error_banner d; err]) q
  | (Normal None, q) => (Normal tt, q)
  | (Throw e, q) => console_warn [error_banner d; e] q
  end.
Proof.
  destruct d; simpl.
  - unfold antiDebug.runChecks, antiDebug.triggerDetection, try_catch, mbind, M_bind.
    destruct (antiDebug.isDevToolsOpenBySize p) as [[[]|e] q]; simpl; try reflexivity.
    destruct (antiDebug.isDevToolsOpenByTiming q) as [[[]|e] q']; reflexivity.
  - unfold domGuard.runCheck, domGuard.triggerTamper, try_catch, mbind, M_bind, get.
    destruct (domGuard.isTampered (initialSnapshot p) p) as [[[]|e] q]; reflexivity.
  - unfold selfDefend.runCheck, selfDefend.triggerFail, try_catch, mbind, M_bind,
      get, read, currentFn.
    destruct (toString _) as [src|e]; simpl; [|reflexivity].
    destruct (negb _); reflexivity.
Qed.

(** ** What a poll does with the outcome of the heuristics *)

Lemma host_only_with_host p f q : host_only p q -> host_only p (with_host f q).
Proof. unfold host_only. intros ->. reflexivity. Qed.

Lemma host_only_refl p : host_only p p.
Proof. unfold host_only. destruct p; reflexivity. Qed.

(** Evaluating the heuristics changes nothing but the host (the clock
    advances, warnings are written). *)
Lemma detect_host_only d p : host_only p (detect d p).2.
Proof.
  pose proof (host_only_with_host p) as Hh.
  assert (Hk : keeps (host_only p) (detect d)).
  { destruct d; simpl.
    - apply keeps_bind; [apply keeps_isDevToolsOpenBySize; exact Hh | intros b].
      apply keeps_if; [apply keeps_ret|].
      apply keeps_bind; [apply keeps_isDevToolsOpenByTiming; exact Hh | intros b'].
      apply keeps_ret.
    - apply keeps_bind; [apply keeps_get | intros s].
      apply keeps_bind; [apply keeps_isTampered; exact Hh | intros b].
      apply keeps_ret.
    - apply keeps_bind; [apply keeps_read | intros s].
      apply keeps_bind; [apply keeps_get | intros h].
      apply keeps_ret. }
  apply Hk, host_only_refl.
Qed.

Lemma with_host_id q : with_host (fun h => h) q = q.
Proof. destruct q; reflexivity. Qed.

(** Entering the trigger inside the try block of a poll leaves the page
    the trigger produces, up to the warning of the catch clause. *)
Lemma caught_trigger d reason q :
  exists f,
    (try_catch (trigger d reason)
       (fun err => console_warn [error_banner d; err]) q).2
    = with_host f (trigger d reason q).2.
Proof.
  unfold try_catch. destruct (trigger d reason q) as [[[]|e] q']; simpl.
  - exists (fun h => h). symmetry. apply with_host_id.
  - eexists. reflexivity.
Qed.


(** ** Exact comparisons *)

Lemma Qgtb_lt (a b : Q) : Qgtb a b = true <-> (b < a)%Q.
Proof.
  unfold Qgtb. rewrite negb_true_iff, <- not_true_iff_false, Qle_bool_iff.
  split.
  - apply Qnot_le_lt.
  - apply Qlt_not_le.
Qed.

Lemma quotient_exceeds_3 (a b : nat) :
  (1 <= b)%nat -> (3 < domGuard.num a / domGuard.num b)%Q <-> (3 * b < a)%nat.
Proof.
  intros Hb. unfold domGuard.num, Qdiv, Qinv, Qlt, Qmult, inject_Z; simpl.
  destruct (Z.of_nat b) as [|q|q] eqn:Hq; try lia. simpl. lia.
Qed.

(** The ratio computed by [isTampered] exceeds the factor exactly when the
    ratio of the design document does. *)
Lemma ratio_agrees (cur orig : nat) :
  let maxLen := Nat.max 1 orig in
  Qgtb (if (maxLen <? cur)%nat
        then (domGuard.num cur / domGuard.num maxLen)%Q
        else (domGuard.num maxLen / domGuard.num (Nat.max 1 cur))%Q)
       domGuard.TEXT_CHANGE_FACTOR = true
  <-> (3 < spec_ratio cur orig)%Q.
Proof.
  cbv zeta. rewrite Qgtb_lt. unfold spec_ratio, domGuard.TEXT_CHANGE_FACTOR.
  rewrite (quotient_exceeds_3 (Nat.max cur orig)) by lia.
  destruct (Nat.ltb_spec (Nat.max 1 orig) cur).
  - rewrite quotient_exceeds_3 by lia. lia.
  - rewrite quotient_exceeds_3 by lia. lia.
Qed.

(** ** The viewport heuristic *)

(** C8.  [isDevToolsOpenBySize] returns true exactly when the outer width
    exceeds the inner width by more than 160 pixels or the outer height
    exceeds the inner height by more than 160 pixels.  With a width
    difference of 200 it returns true; with a width difference of 50 and
    a height difference within the threshold it returns false. *)
Theorem isDevToolsOpenBySize_threshold (p : Page) (ow iw oh ih : Z) :
  outerWidth (window (host p)) = Val ow ->
  innerWidth (window (host p)) = Val iw ->
  outerHeight (window (host p)) = Val oh ->
  innerHeight (window (host p)) = Val ih ->
  exists b : bool,
    antiDebug.isDevToolsOpenBySize p = (Normal b, p) /\
    (b = true <-> ow - iw > 160 \/ oh - ih > 160) /\
    (ow - iw = 200 -> b = true) /\
    (ow - iw = 50 -> oh - ih <= 160 -> b = false).
Proof.
  intros How Hiw Hoh Hih.
  exists ((ow - iw >? antiDebug.SIZE_THRESHOLD) || (oh - ih >? antiDebug.SIZE_THRESHOLD)).
  split.
  - unfold antiDebug.isDevToolsOpenBySize. unfold_m.
    rewrite How, Hiw, Hoh, Hih. reflexivity.
  - unfold antiDebug.SIZE_THRESHOLD.
    rewrite orb_true_iff, orb_false_iff, !Z.gtb_gt, <- !not_true_iff_false, !Z.gtb_gt.
    repeat split; intros; lia.
Qed.

Lemma isDevToolsOpenBySize_threshold_witness :
  exists b : bool,
    antiDebug.isDevToolsOpenBySize (load devtools_host) = (Normal b, load devtools_host) /\
    (b = true <-> 1480 - 1280 > 160 \/ 800 - 720 > 160) /\
    (1480 - 1280 = 200 -> b = true) /\
    (1480 - 1280 = 50 -> 800 - 720 <= 160 -> b = false).
Proof.
  apply (isDevToolsOpenBySize_threshold (load devtools_host) 1480 1280 800 720);
    reflexivity.
Defined.

(** ** The DOM guard, entry by entry *)






(** C9.  An entry recorded with [exists = false] never makes [isTampered]
    report tampering, whatever the document holds for its selector now:
    the round for that entry returns false without changing anything, and
    the loop goes on to the remaining entries. *)
Theorem itemTampered_skips_absent_entries (p : Page) (item : SnapshotItem) :
  exists_ item = false ->
  domGuard.itemTampered item p = (Normal false, p) /\
  (forall rest, domGuard.isTampered (item :: rest) p = domGuard.isTampered rest p).
Proof.
  intros Hex.
  assert (H : domGuard.itemTampered item p = (Normal false, p)).
  { unfold domGuard.itemTampered, domGuard.querySelector. unfold_m.
    rewrite Hex. destruct (elements (document (host p)) !! selector item); reflexivity. }
  split; [exact H|].
  intros rest. simpl. unfold mbind, M_bind. rewrite H. reflexivity.
Qed.

Lemma itemTampered_skips_absent_entries_witness :
  domGuard.itemTampered
    {| selector := "#task-form"; exists_ := false; textLength := 0 |}
    (load demo_host)
  = (Normal false, load demo_host) /\
  (forall rest,
     domGuard.isTampered
       ({| selector := "#task-form"; exists_ := false; textLength := 0 |} :: rest)
       (load demo_host)
     = domGuard.isTampered rest (load demo_host)).
Proof.
  apply (itemTampered_skips_absent_entries (load demo_host)
    {| selector := "#task-form"; exists_ := false; textLength := 0 |}).
  reflexivity.
Defined.

(** ** The start functions *)

Lemma poll_stable d p : stable p (poll d p).2.
Proof.
  apply (keeps_poll (stable p)).
  - intros f q Hq. eapply stable_trans; [exact Hq | apply stable_with_host].
  - intros d' reason q Hq. eapply stable_trans; [exact Hq | apply trigger_stable].
  - apply stable_refl.
Qed.

Lemma snapshot_from_pure selectors acc p :
  (domGuard.snapshot_from selectors acc p).2 = p.
Proof.
  revert acc p. induction selectors as [|s rest IH]; intros acc p; simpl.
  - reflexivity.
  - unfold mbind, M_bind, domGuard.querySelector, get; simpl.
    destruct (elements (document (host p)) !! s) as [e|]; simpl.
    + unfold domGuard.textLen, mbind, M_bind, read.
      destruct (textContent e); simpl; [apply IH | reflexivity].
    + apply IH.
Qed.


Lemma startDomGuard_eq config p :
  domGuard.startDomGuard config p =
  let p1 := with_host (with_console (LLog, ["[domGuard] DOM guard initialized"])) p in
  match (domGuard.snapshotDom p1).1 with
  | Throw e => (Throw e, p1)
  | Normal snapshot =>
      (Normal tt,
       arm DomGuard 3000
         (poll DomGuard
            (enter DomGuard (destructure config "onTamper")
               (domGuard.set_initialSnapshot snapshot p1))).2)
  end.
Proof.
  unfold domGuard.startDomGuard, arm, enter. unfold_m. simpl.
  match goal with |- context [domGuard.snapshotDom ?q] =>
    pose proof (snapshot_from_pure domGuard.PROTECTED_SELECTORS [] q) as Hp;
    fold domGuard.snapshotDom in Hp;
    destruct (domGuard.snapshotDom q) as [[snapshot|e] q1] end; simpl in *; subst q1.
  - match goal with |- context [domGuard.runCheck ?q] =>
      pose proof (poll_normal DomGuard q) as Hn; simpl in Hn;
      destruct (domGuard.runCheck q) as [[[]|e] q'] end; simpl in *.
    + reflexivity.
    + discriminate.
  - reflexivity.
Qed.

(** The start-up check of the self-defend detector finds the canary it
    has just stored behind the handle, so it never triggers. *)
Lemma startSelfDefend_eq config p :
  selfDefend.startSelfDefend config p =
  (Normal tt,
   arm SelfDefend 4000
     (enter SelfDefend (destructure config "onFail")
        (with_host
           (with_window (selfDefend.set_selfDefendInfo
              (Some {| targetFn := selfDefend.checkIntegrity;
                       originalHash := VNum baseline |})))
           (selfDefend.set_originalHash baseline
              (with_host (with_console (LLog, ["[selfDefend] Self-defend initialized"])) p))))).
Proof.
  unfold selfDefend.startSelfDefend, arm, enter, selfDefend.runCheck, baseline.
  unfold_m. simpl. rewrite ?Z.eqb_refl. reflexivity.
Qed.

(** ** The self-defend poll *)

Lemma started_baseline config p0 es :
  sd_originalHash (run es (selfDefend.startSelfDefend config p0).2) = baseline.
Proof.
  rewrite (st_hash _ _ (run_stable es _)). rewrite startSelfDefend_eq. reflexivity.
Qed.

Lemma started_callback config p0 es :
  callback (closures (run es (selfDefend.startSelfDefend config p0).2) SelfDefend)
  = destructure config "onFail".
Proof.
  rewrite (st_callback _ _ (run_stable es _)). rewrite startSelfDefend_eq. reflexivity.
Qed.


(** The poll hashes the source of [currentFn] and compares it with the
    stored baseline. *)
Lemma detect_selfDefend p src :
  toString (currentFn (host p)) = Val src ->
  detect SelfDefend p =
  (Normal (if negb (selfDefend.simpleHash src =? sd_originalHash p)
           then Some "function-source-changed" else None), p).
Proof. intros H. simpl. unfold_m. rewrite H. reflexivity. Qed.



(** The outcome of one self-defend poll with the flag unset: the callback
    runs, with the reason ["function-source-changed"], when the checksum
    of the current source differs from the baseline, and nothing happens
    when it is equal. *)
Lemma selfDefend_poll_outcome p f src :
  callback (closures p SelfDefend) = Some (PFun f) ->
  already (closures p SelfDefend) = false ->
  toString (currentFn (host p)) = Val src ->
  let p' := (handler SelfDefend p).2 in
  (selfDefend.simpleHash src <> sd_originalHash p ->
     invoked SelfDefend p' = invoked SelfDefend p ++ ["function-source-changed"] /\
     already (closures p' SelfDefend) = true) /\
  (selfDefend.simpleHash src = sd_originalHash p -> p' = p).
Proof.
  intros Hcb Hfl Hsrc p'. subst p'.
  rewrite handler_poll, Hfl, poll_detect, (detect_selfDefend p src Hsrc).
  split; intros Hh.
  - apply Z.eqb_neq in Hh. rewrite Hh. simpl.
    destruct (caught_trigger SelfDefend "function-source-changed" p) as [g Hg].
    simpl in Hg. rewrite Hg. split.
    + change (invoked SelfDefend (with_host g ?q)) with (invoked SelfDefend q).
      rewrite trigger_invoked by exact Hfl. rewrite Hcb. reflexivity.
    + apply (trigger_sets_flag SelfDefend "function-source-changed" p).
  - apply Z.eqb_eq in Hh. rewrite Hh. reflexivity.
Qed.

(** C6, as the code has it.  A poll of the self-defend detector hashes the
    source of whatever function now sits behind
    [window.__selfDefendInfo.targetFn], not the reference captured at
    start.  After the handle has been replaced by a function, the next
    poll invokes [onFail] with ["function-source-changed"] when the
    32-bit character-code sum of the new source differs from the baseline,
    and does nothing when the sum is equal, even if the text differs.
    Calling the canary changes nothing. *)
Theorem selfDefend_fires_on_checksum_change
    (config : option Config) (p0 : Page) (es : list event)
    (f : Callback) (i : SelfDefendInfo) (id : nat) (ms : Z) (src' : list Z) :
  let p := run es (selfDefend.startSelfDefend config p0).2 in
  destructure config "onFail" = Some (PFun f) ->
  already (closures p SelfDefend) = false ->
  selfDefendInfo (window (host p)) = Some i ->
  timers p !! id = Some (SelfDefend, ms) ->
  let replaced := step p (External (replace_handle (VFun src'))) in
  let p' := run [External (replace_handle (VFun src')); Tick id] p in
  currentFn (host replaced) = VFun src' /\
  (selfDefend.simpleHash src' <> baseline ->
     invoked SelfDefend p' = invoked SelfDefend p ++ ["function-source-changed"] /\
     already (closures p' SelfDefend) = true) /\
  (selfDefend.simpleHash src' = baseline ->
     p' = replaced /\ invoked SelfDefend p' = invoked SelfDefend p) /\
  (forall q, (selfDefend.call_checkIntegrity q).2 = q).
Proof.
  intros p Hcfg Hfl Hi Hid replaced p'.
  assert (Hcur : currentFn (host replaced) = VFun src').
  { unfold replaced, currentFn; simpl. rewrite Hi. reflexivity. }
  assert (Hp' : p' = (handler SelfDefend replaced).2).
  { unfold p', replaced; simpl. rewrite Hid. reflexivity. }
  assert (Hcb : callback (closures replaced SelfDefend) = Some (PFun f)).
  { unfold replaced; simpl. fold p. unfold p. rewrite started_callback. exact Hcfg. }
  assert (Hbase : sd_originalHash replaced = baseline).
  { unfold replaced; simpl. apply started_baseline. }
  assert (Hsrc : toString (currentFn (host replaced)) = Val src').
  { rewrite Hcur. reflexivity. }
  destruct (selfDefend_poll_outcome replaced f src' Hcb Hfl Hsrc) as [Hne Heq].
  rewrite Hbase in Hne, Heq. rewrite <- Hp' in Hne, Heq.
  split; [exact Hcur|]. split; [exact Hne|]. split; [|reflexivity].
  intros Hh. rewrite (Heq Hh). split; reflexivity.
Qed.

Lemma selfDefend_fires_on_checksum_change_witness :
  invoked SelfDefend
    (run [External (replace_handle (VFun (units hacked_source))); Tick 1%nat]
       (run [] (selfDefend.startSelfDefend (Some {[ "onFail" := PFun app.onFail ]})
                  (load demo_host)).2))
  = invoked SelfDefend
      (run [] (selfDefend.startSelfDefend (Some {[ "onFail" := PFun app.onFail ]})
                 (load demo_host)).2)
    ++ ["function-source-changed"] /\
  already
    (closures
       (run [External (replace_handle (VFun (units hacked_source))); Tick 1%nat]
          (run [] (selfDefend.startSelfDefend (Some {[ "onFail" := PFun app.onFail ]})
                     (load demo_host)).2))
       SelfDefend) = true.
Proof.
  refine (proj1 (proj2 (selfDefend_fires_on_checksum_change
           (Some {[ "onFail" := PFun app.onFail ]}) (load demo_host) []
           app.onFail
           {| targetFn := selfDefend.checkIntegrity; originalHash := VNum baseline |}
           1%nat 4000 (units hacked_source) _ _ _ _)) _).
  - apply lookup_singleton_eq.
  - reflexivity.
  - reflexivity.
  - apply lookup_insert_eq.
  - vm_compute. discriminate.
Defined.

(** C6, as stated, fails: a routine whose source text differs from the
    canary's but has the same character-code sum is put behind the handle,
    and the next poll of the self-defend detector does not fire. *)
Lemma reordered_source_is_not_detected :
  units reordered_source <> units selfDefend.checkIntegrity_source /\
  selfDefend.simpleHash (units reordered_source) = baseline /\
  let p := (app.init (load demo_host)).2 in
  let p' := run [External (replace_handle (VFun (units reordered_source)));
                 Tick 2%nat] p in
  timers p !! 2%nat = Some (SelfDefend, 4000) /\
  currentFn (host p') = VFun (units reordered_source) /\
  invoked SelfDefend p' = [] /\
  already (closures p' SelfDefend) = false /\
  app.lock_messages (host p') = [].
Proof.
  split; [|split].
  - intros H. apply (f_equal (fun l => l !! 167%nat)) in H.
    vm_compute in H. discriminate.
  - vm_compute. reflexivity.
  - vm_compute. repeat split; reflexivity.
Qed.

(** ** Exceptions in a poll *)

(** C7.  When the heuristics of a poll raise an exception, the poll
    routine catches it: the tick returns normally, the page is what the
    heuristics left plus one warning, the callback is not invoked, the flag
    stays unset and the timer stays registered, so the next tick of that
    timer runs the poll routine again. *)
Theorem poll_catches_exceptions
    (d : detector) (p q : Page) (e : exn) (id : nat) (ms : Z) :
  detect d p = (Throw e, q) ->
  timers p !! id = Some (d, ms) ->
  already (closures p d) = false ->
  let p' := step p (Tick id) in
  (handler d p).1 = Normal tt /\
  p' = with_host (with_console (LWarn, [error_banner d; e])) q /\
  host_only p q /\
  invoked d p' = invoked d p /\
  already (closures p' d) = false /\
  timers p' !! id = Some (d, ms) /\
  (forall f, step (with_host f p') (Tick id) = (poll d (with_host f p')).2).
Proof.
  intros Hdet Hid Hfl p'.
  pose proof (detect_host_only d p) as Hq. rewrite Hdet in Hq. simpl in Hq.
  assert (Hp' : p' = with_host (with_console (LWarn, [error_banner d; e])) q).
  { unfold p'; simpl. rewrite Hid, handler_poll, Hfl, poll_detect, Hdet. reflexivity. }
  split; [apply handler_normal|]. split; [exact Hp'|]. split; [exact Hq|].
  rewrite Hp'. red in Hq. rewrite Hq. simpl.
  split; [reflexivity|]. split; [exact Hfl|]. split; [exact Hid|].
  intros f. rewrite Hid, handler_poll. simpl. rewrite Hfl. reflexivity.
Qed.

Lemma poll_catches_exceptions_witness :
  (handler AntiDebug (antiDebug.startAntiDebug None (load broken_host)).2).1 = Normal tt.
Proof.
  refine (proj1 (poll_catches_exceptions AntiDebug
            (antiDebug.startAntiDebug None (load broken_host)).2
            (antiDebug.startAntiDebug None (load broken_host)).2
            "outerWidth is not readable" 1%nat 3000 _ _ _)).
  - reflexivity.
  - vm_compute. reflexivity.
  - reflexivity.
Defined.

(** ** The latch of a detector *)

Lemma triggers_done d reasons q :
  already (closures q d) = true -> triggers d reasons q = q.
Proof.
  intros H. induction reasons as [|r rs IH]; simpl; [reflexivity|].
  rewrite trigger_done by exact H. simpl. exact IH.
Qed.

(** Once the flag of [d] is set, no tick and no external change unsets it,
    invokes the callback of [d] or touches its captured variables. *)
Lemma latched_forever d q es :
  already (closures q d) = true ->
  already (closures (run es q) d) = true /\
  invoked d (run es q) = invoked d q /\
  closures (run es q) d = closures q d.
Proof.
  intros H.
  apply (keeps_run (fun x => already (closures x d) = true /\
                             invoked d x = invoked d q /\
                             closures x d = closures q d)).
  - intros f x Hx. exact Hx.
  - intros d' reason x (Hx1 & Hx2 & Hx3).
    destruct (decide (d' = d)) as [->|Hne].
    + rewrite trigger_done by exact Hx1. auto.
    + assert (Hne' : d <> d') by congruence.
      rewrite trigger_other_closure, trigger_invoked_other by exact Hne'. auto.
  - auto.
Qed.

(** C4, as the code has it.  For each detector, the first entry into its
    trigger routine invokes the registered callback once, with the reason
    given; after that, whatever ticks, external changes and further
    entries into the trigger follow, the callback is not invoked again,
    the flag stays set and the handle stays null.  The first entry cancels
    the timer whose handle the detector holds at that moment and no other:
    one cancellation when the handle is set, none when it is still null,
    as it is during the check that the start function runs before it
    creates the timer.  Further entries cancel nothing. *)
Theorem trigger_is_once_only
    (d : detector) (p : Page) (f : Callback) (reason : string)
    (es : list event) (more : list string) :
  already (closures p d) = false ->
  callback (closures p d) = Some (PFun f) ->
  let p1 := (trigger d reason p).2 in
  let p2 := triggers d more (run es p1) in
  invoked d p2 = invoked d p ++ [reason] /\
  already (closures p2 d) = true /\
  intervalId (closures p2 d) = None /\
  cancelled p1 = cancelled p ++ match intervalId (closures p d) with
                                | Some id => [id]
                                | None => []
                                end /\
  cancelled (triggers d more p1) = cancelled p1.
Proof.
  intros Hfl Hcb p1 p2.
  assert (H1 : already (closures p1 d) = true) by apply trigger_sets_flag.
  destruct (latched_forever d p1 es H1) as (Hr1 & Hr2 & Hr3).
  assert (Hp2 : p2 = run es p1) by (apply triggers_done; exact Hr1).
  rewrite Hp2, Hr2, Hr3. split; [|split; [exact H1|split; [|split]]].
  - unfold p1. rewrite trigger_invoked by exact Hfl. rewrite Hcb. reflexivity.
  - apply trigger_clears_handle, Hfl.
  - apply trigger_cancelled, Hfl.
  - rewrite triggers_done by exact H1. reflexivity.
Qed.

Lemma trigger_is_once_only_witness :
  let p := arm DomGuard 3000
             (enter DomGuard (Some (PFun app.onTamper)) (load demo_host)) in
  let p1 := (trigger DomGuard "snapshot-mismatch" p).2 in
  let p2 := triggers DomGuard ["snapshot-mismatch"] (run [Tick 1%nat] p1) in
  invoked DomGuard p2 = invoked DomGuard p ++ ["snapshot-mismatch"] /\
  already (closures p2 DomGuard) = true /\
  intervalId (closures p2 DomGuard) = None /\
  cancelled p1 = cancelled p ++ match intervalId (closures p DomGuard) with
                                | Some id => [id]
                                | None => []
                                end /\
  cancelled (triggers DomGuard ["snapshot-mismatch"] p1) = cancelled p1.
Proof.
  apply (trigger_is_once_only DomGuard
           (arm DomGuard 3000
              (enter DomGuard (Some (PFun app.onTamper)) (load demo_host)))
           app.onTamper "snapshot-mismatch" [Tick 1%nat] ["snapshot-mismatch"]);
    reflexivity.
Defined.

(** C4, as stated, fails: the page loads with the inspector docked, so the
    start-up check of the anti-debug detector triggers before the timer
    exists.  The callback runs once, but no timer is ever cancelled: the
    timer created afterwards stays registered and its handle stays set,
    through later ticks and a second entry into the trigger. *)
Lemma startup_detection_never_cancels_timer :
  let p := (antiDebug.startAntiDebug
              (Some {[ "onDetected" := PFun (app.locking "Debugging detected. App locked.") ]})
              (load devtools_host)).2 in
  let p' := triggers AntiDebug ["window-size-heuristic"]
              (run [Tick 1%nat; Tick 1%nat] p) in
  already (closures p AntiDebug) = true /\
  invoked AntiDebug p' = ["window-size-heuristic"] /\
  cancelled p' = [] /\
  intervalId (closures p' AntiDebug) = Some 1%nat /\
  timers p' !! 1%nat = Some (AntiDebug, 3000).
Proof. vm_compute. repeat split; reflexivity. Qed.

(** ** Detectors that were never started *)

Lemma trigger_silent d' d reason : keeps (silent d') (trigger d reason).
Proof.
  intros p [Hcb Hinv]. split.
  - rewrite trigger_callback. exact Hcb.
  - destruct (decide (d' = d)) as [->|Hne].
    + destruct (already (closures p d)) eqn:H.
      * rewrite trigger_done by exact H. exact Hinv.
      * rewrite trigger_invoked by exact H. rewrite Hcb, Hinv. reflexivity.
    + rewrite trigger_invoked_other by exact Hne. exact Hinv.
Qed.

Lemma poll_silent d' d : keeps (silent d') (poll d).
Proof.
  apply keeps_poll.
  - intros f q Hq. exact Hq.
  - intros d'' reason. apply trigger_silent.
Qed.

Lemma run_silent d' es p : silent d' p -> silent d' (run es p).
Proof.
  apply (keeps_run (silent d')).
  - intros f q Hq. exact Hq.
  - intros d'' reason. apply trigger_silent.
Qed.

Lemma poll_once_only d : keeps once_only (poll d).
Proof.
  apply keeps_poll.
  - intros f q Hq. exact Hq.
  - intros d' reason. apply trigger_once_only.
Qed.

Lemma invoked_arm d' d ms q : invoked d' (arm d ms q) = invoked d' q.
Proof.
  unfold arm. change (invoked d' (with_closure ?a ?b ?x)) with (invoked d' x).
  rewrite invoked_with_call. apply app_nil_r.
Qed.

Lemma arm_once_only d ms q : once_only q -> once_only (arm d ms q).
Proof.
  intros Hq d'. rewrite invoked_arm. destruct (Hq d') as [Hlen Hnone].
  split; [exact Hlen|]. intros Hfl. apply Hnone. revert Hfl.
  unfold arm; simpl. destruct (decide (d' = d)); auto.
Qed.

Lemma enter_once_only d cb q :
  once_only q -> invoked d q = [] -> once_only (enter d cb q).
Proof.
  intros Hq Hd d'. change (invoked d' (enter d cb q)) with (invoked d' q).
  destruct (Hq d') as [Hlen Hnone]. split; [exact Hlen|].
  unfold enter; simpl. destruct (decide (d' = d)) as [->|Hne]; auto.
Qed.

Lemma arm_silent d' d ms q : d' <> d -> silent d' q -> silent d' (arm d ms q).
Proof.
  intros Hne [Hcb Hinv]. split.
  - unfold arm; simpl. rewrite decide_False by exact Hne. exact Hcb.
  - rewrite invoked_arm. exact Hinv.
Qed.

Lemma enter_silent d' d cb q : d' <> d -> silent d' q -> silent d' (enter d cb q).
Proof.
  intros Hne [Hcb Hinv]. split.
  - unfold enter; simpl. rewrite decide_False by exact Hne. exact Hcb.
  - exact Hinv.
Qed.

Lemma load_silent d h : silent d (load h).
Proof. split; reflexivity. Qed.

Lemma load_once_only h : once_only (load h).
Proof. intros d. split; [simpl; lia | reflexivity]. Qed.

Lemma init_eq p :
  app.init p =
  match domGuard.startDomGuard (Some {[ "onTamper" := PFun app.onTamper ]})
          (with_host (with_console (LLog, ["[app] Initializing Secure Tasks"])) p) with
  | (Normal _, q) => selfDefend.startSelfDefend (Some {[ "onFail" := PFun app.onFail ]}) q
  | (Throw e, q) => (Throw e, q)
  end.
Proof. reflexivity. Qed.

(** What [init] leaves behind, on any page: each callback has run at most
    once, the anti-debug detector has no callback, and no timer belongs to
    it. *)
Lemma init_page h :
  once_only (app.init (load h)).2 /\
  silent AntiDebug (app.init (load h)).2 /\
  (forall id d ms, timers (app.init (load h)).2 !! id = Some (d, ms) -> d <> AntiDebug).
Proof.
  rewrite init_eq, startDomGuard_eq. cbv zeta.
  set (p1 := with_host _ (with_host _ (load h))).
  assert (H1 : once_only p1) by apply load_once_only.
  assert (S1 : forall d, silent d p1) by (intros d; apply load_silent).
  destruct (domGuard.snapshotDom p1).1 as [snapshot|e].
  - rewrite startSelfDefend_eq.
    set (q := enter DomGuard _ _).
    assert (Hq : once_only q).
    { apply enter_once_only; [exact H1 | exact (proj2 (S1 DomGuard))]. }
    assert (Sq : forall d, d <> DomGuard -> silent d q).
    { intros d Hd. apply enter_silent; [exact Hd | exact (S1 d)]. }
    pose proof (poll_once_only DomGuard q Hq) as Hx.
    pose proof (poll_silent SelfDefend DomGuard q (Sq SelfDefend ltac:(discriminate))) as Sx.
    pose proof (poll_silent AntiDebug DomGuard q (Sq AntiDebug ltac:(discriminate))) as Ax.
    pose proof (poll_stable DomGuard q) as Tx.
    set (x := (poll DomGuard q).2) in *.
    split; [|split].
    + apply arm_once_only, enter_once_only.
      * apply (arm_once_only DomGuard 3000 x Hx).
      * change (invoked SelfDefend (arm DomGuard 3000 x) = []).
        rewrite invoked_arm. apply Sx.
    + apply arm_silent; [discriminate|]. apply enter_silent; [discriminate|].
      apply (arm_silent AntiDebug DomGuard 3000 x); [discriminate | exact Ax].
    + intros id d ms. unfold arm at 1; simpl.
      intros Hl. apply lookup_insert_Some in Hl as [[_ Hl]|[_ Hl]]; [congruence|].
      apply lookup_insert_Some in Hl as [[_ Hl]|[_ Hl]]; [congruence|].
      apply (st_timers _ _ Tx) in Hl. simpl in Hl. rewrite lookup_empty in Hl. discriminate.
  - split; [exact H1|]. split; [apply S1|]. intros id d ms Hl.
    simpl in Hl. rewrite lookup_empty in Hl. discriminate.
Qed.

(** When [init] completes, the two detectors it starts hold the callbacks
    that lock the application with their message. *)
Lemma init_callbacks h :
  (app.init (load h)).1 = Normal tt ->
  callback (closures (app.init (load h)).2 DomGuard) = Some (PFun app.onTamper) /\
  callback (closures (app.init (load h)).2 SelfDefend) = Some (PFun app.onFail).
Proof.
  rewrite init_eq, startDomGuard_eq. cbv zeta.
  destruct (domGuard.snapshotDom _).1 as [snapshot|e]; [|discriminate].
  rewrite startSelfDefend_eq. intros _. split.
  - unfold arm at 1, enter at 1; simpl.
    match goal with |- callback (closures (domGuard.runCheck ?q).2 DomGuard) = _ =>
      rewrite (st_callback _ _ (poll_stable DomGuard q)) end.
    unfold enter; simpl. apply lookup_singleton_eq.
  - unfold arm at 1, enter at 1; simpl. apply lookup_singleton_eq.
Qed.

(** ** The lock action *)

Lemma setSecurityMessage_console text h :
  console (app.setSecurityMessage text h) = console h.
Proof.
  unfold app.setSecurityMessage.
  destruct (app.getElementById (document h) "security-message"); reflexivity.
Qed.

Lemma lockApp_console message h :
  console (app.lockApp message h) =
  console h ++ [(LWarn, ["[app] App locked due to security event:"; message])].
Proof.
  unfold app.lockApp. cbv zeta.
  destruct (app.getElementById (document (app.setSecurityMessage message h)) "task-form");
    simpl; rewrite setSecurityMessage_console; reflexivity.
Qed.

Lemma lockApp_lock_messages message h :
  app.lock_messages (app.lockApp message h) = app.lock_messages h ++ [message].
Proof.
  unfold app.lock_messages. rewrite lockApp_console, omap_app. reflexivity.
Qed.

Lemma lockApp_buttons message h :
  buttons (document (app.lockApp message h)) = app.disable <$> buttons (document h).
Proof.
  unfold app.lockApp, app.setSecurityMessage. cbv zeta.
  destruct (app.getElementById (document h) "security-message"); simpl;
    match goal with
    | |- context [app.getElementById ?doc "task-form"] =>
        destruct (app.getElementById doc "task-form")
    end; reflexivity.
Qed.

Lemma lockApp_shown_message message h :
  is_Some (app.getElementById (document h) "security-message") ->
  app.shown_message (app.lockApp message h) = Some (app.or_empty message) /\
  is_Some (app.getElementById (document (app.lockApp message h)) "security-message").
Proof.
  intros [e He]. unfold app.shown_message, app.lockApp, app.setSecurityMessage.
  cbv zeta. rewrite He. simpl.
  match goal with
  | |- context [app.getElementById ?doc "task-form"] =>
      destruct (app.getElementById doc "task-form")
  end; unfold app.getElementById; simpl.
  - rewrite lookup_insert_ne by discriminate. rewrite lookup_insert_eq. simpl. eauto.
  - rewrite lookup_insert_eq. simpl. eauto.
Qed.

Lemma last_cons {A} (x d : A) (l : list A) : List.last (x :: l) d = List.last l x.
Proof.
  revert x d. induction l as [|y l IH]; intros x d; [reflexivity|].
  change (List.last (y :: l) d = List.last (y :: l) x). rewrite !IH. reflexivity.
Qed.

Lemma disable_twice (bs : list Button) :
  app.disable <$> (app.disable <$> bs) = app.disable <$> bs.
Proof. rewrite <- list_fmap_compose. reflexivity. Qed.

(** C1, as the code has it.  There is no latch in front of [lockApp]:
    every firing of a detector callback runs it.  After the callbacks
    [() => lockApp(m)] have fired for the messages [first], [rest] in this
    order, [lockApp] has run once for each of them, the message shown is
    the one of the source that fired last, and the buttons are as the
    first firing left them: all disabled.  What bounds the number of runs
    is the latch of each detector: after [init], in any sequence of ticks
    and external changes, the callback of a detector is invoked at most
    once. *)
Theorem lockApp_runs_on_every_firing
    (h : Host) (reason first : string) (rest : list string)
    (h0 : Host) (es : list event) (d : detector) :
  let h' := fold_left (fun h m => (app.locking m reason h).2) (first :: rest) h in
  app.lock_messages h' = app.lock_messages h ++ first :: rest /\
  (is_Some (app.getElementById (document h) "security-message") ->
   app.shown_message h' = Some (app.or_empty (List.last rest first))) /\
  buttons (document h') = app.disable <$> buttons (document h) /\
  Forall (fun b => disabled b = true) (buttons (document h')) /\
  (length (invoked d (run es (app.init (load h0)).2)) <= 1)%nat.
Proof.
  intros h'.
  assert (Hgen : forall ms h1,
    let h2 := fold_left (fun h m => (app.locking m reason h).2) ms h1 in
    app.lock_messages h2 = app.lock_messages h1 ++ ms /\
    (forall m0, is_Some (app.getElementById (document h1) "security-message") ->
       app.shown_message h1 = Some (app.or_empty m0) ->
       app.shown_message h2 = Some (app.or_empty (List.last ms m0))) /\
    (forall bs, buttons (document h1) = app.disable <$> bs ->
       buttons (document h2) = app.disable <$> bs)).
  { induction ms as [|m ms IH]; intros h1; cbv zeta.
    - simpl. rewrite app_nil_r. auto.
    - change (fold_left _ (m :: ms) h1)
        with (fold_left (fun h m => (app.locking m reason h).2) ms (app.lockApp m h1)).
      destruct (IH (app.lockApp m h1)) as (IH1 & IH2 & IH3).
      split; [|split].
      + rewrite IH1, lockApp_lock_messages, <- app_assoc. reflexivity.
      + intros m0 Hel _.
        destruct (lockApp_shown_message m h1 Hel) as [Hs Hel'].
        rewrite (IH2 m Hel' Hs), last_cons. reflexivity.
      + intros bs Hbs. apply IH3. rewrite lockApp_buttons, Hbs. apply disable_twice. }
  unfold h'.
  change (fold_left _ (first :: rest) h)
    with (fold_left (fun h m => (app.locking m reason h).2) rest (app.lockApp first h)).
  destruct (Hgen rest (app.lockApp first h)) as (G1 & G2 & G3).
  assert (Hb : buttons (document
             (fold_left (fun h m => (app.locking m reason h).2) rest (app.lockApp first h)))
           = app.disable <$> buttons (document h)).
  { apply G3, lockApp_buttons. }
  split; [|split; [|split; [exact Hb|split]]].
  - rewrite G1, lockApp_lock_messages, <- app_assoc. reflexivity.
  - intros Hel. destruct (lockApp_shown_message first h Hel) as [Hs Hel'].
    apply G2; assumption.
  - rewrite Hb. apply Forall_fmap, Forall_true. intros b. reflexivity.
  - destruct (init_page h0) as (Hinit & _ & _).
    apply (run_once_only es _ Hinit d).
Qed.

(** C1, as stated, fails: after [init] the task form is removed and the
    DOM guard fires on its next tick; then the canary handle is replaced
    and the self-defend detector fires on its next tick.  [lockApp] has
    run twice, and the message shown is the one of the second source. *)
Lemma second_detector_locks_again :
  let p := (app.init (load demo_host)).2 in
  let p' := run [External remove_form; Tick 1%nat;
                 External (replace_handle (VFun (units hacked_source))); Tick 2%nat] p in
  invoked DomGuard p' = ["snapshot-mismatch"] /\
  invoked SelfDefend p' = ["function-source-changed"] /\
  app.lock_messages (host p') =
    ["DOM tampering detected. App locked."; "Integrity check failed. App locked."] /\
  length (app.lock_messages (host p')) <> 1%nat /\
  app.shown_message (host p') = Some "Integrity check failed. App locked." /\
  app.shown_message (host p') <> Some "DOM tampering detected. App locked.".
Proof. vm_compute. repeat split; try reflexivity; discriminate. Qed.

(** ** The wiring done by [init] *)

(** C2 on the code: after [init], on any page and after any sequence of
    ticks and external changes, the anti-debug detector has no registered
    callback, no timer belongs to it, and its callback has never been
    invoked; the timers that exist belong to the DOM guard and to the
    self-defend detector, which hold the callbacks that lock the
    application with their message.  On the page that loads with the
    inspector docked the viewport heuristic is positive, yet nothing locks
    the application. *)
Theorem init_does_not_start_antiDebug (h : Host) (es : list event) :
  let p := run es (app.init (load h)).2 in
  callback (closures p AntiDebug) = None /\
  invoked AntiDebug p = [] /\
  (forall id ms, timers p !! id <> Some (AntiDebug, ms)) /\
  (forall id d ms, timers p !! id = Some (d, ms) -> d = DomGuard \/ d = SelfDefend) /\
  ((app.init (load h)).1 = Normal tt ->
   callback (closures p DomGuard) = Some (PFun app.onTamper) /\
   callback (closures p SelfDefend) = Some (PFun app.onFail)) /\
  let p' := run [Tick 1%nat; Tick 2%nat] (app.init (load devtools_host)).2 in
  (antiDebug.isDevToolsOpenBySize p').1 = Normal true /\
  app.lock_messages (host p') = [].
Proof.
  intros p. destruct (init_page h) as (_ & Hs & Ht).
  destruct (run_silent AntiDebug es _ Hs) as [Hcb Hinv]. fold p in Hcb, Hinv.
  assert (Htm : forall id d ms, timers p !! id = Some (d, ms) -> d <> AntiDebug).
  { intros id d ms Hl. apply (st_timers _ _ (run_stable es _)) in Hl.
    apply (Ht id d ms Hl). }
  split; [exact Hcb|]. split; [exact Hinv|]. split; [|split; [|split]].
  - intros id ms Hl. apply (Htm id AntiDebug ms Hl). reflexivity.
  - intros id d ms Hl. specialize (Htm id d ms Hl). destruct d; auto. congruence.
  - intros Hn. unfold p. rewrite !(st_callback _ _ (run_stable es _)).
    apply init_callbacks, Hn.
  - vm_compute. split; reflexivity.
Qed.

(** ** The constants *)






(** * Further properties of the code *)

(** ** The checksum *)

Lemma simpleHash_from (acc : Z) (str : list Z) :
  fold_left (fun hash c => (hash + c) mod 2 ^ 32) str (acc mod 2 ^ 32)
  = (acc + sum_units str) mod 2 ^ 32.
Proof.
  revert acc. induction str as [|c str IH]; intros acc; simpl.
  - rewrite Z.add_0_r. reflexivity.
  - rewrite Zplus_mod_idemp_l, IH. f_equal. lia.
Qed.

Lemma simpleHash_sum (str : list Z) :
  selfDefend.simpleHash str = sum_units str mod 2 ^ 32.
Proof.
  unfold selfDefend.simpleHash.
  change 0 with (0 mod 2 ^ 32) at 1. rewrite simpleHash_from. reflexivity.
Qed.

Lemma sum_units_app (a b : list Z) : sum_units (a ++ b) = sum_units a + sum_units b.
Proof.
  induction a as [|x a IH]; simpl; [reflexivity|].
  unfold sum_units in *. simpl. rewrite IH. lia.
Qed.

Lemma sum_units_bounds (str : list Z) :
  Forall (fun c => 0 <= c <= 65535) str ->
  0 <= sum_units str <= 65535 * Z.of_nat (length str).
Proof.
  induction 1 as [|c str Hc _ IH]; unfold sum_units in *; simpl; lia.
Qed.

(** X1.  [simpleHash] is the sum of the code units modulo 2^32: it lies
    in [0, 2^32), the hash of a concatenation is the sum of the hashes
    modulo 2^32, and for a string of UTF-16 code units no longer than
    65536 the sum never wraps, so the hash is the plain sum. *)
Theorem simpleHash_is_the_sum (str str' : list Z) :
  selfDefend.simpleHash str = sum_units str mod 2 ^ 32 /\
  0 <= selfDefend.simpleHash str < 2 ^ 32 /\
  selfDefend.simpleHash (str ++ str')
    = (selfDefend.simpleHash str + selfDefend.simpleHash str') mod 2 ^ 32 /\
  (Forall (fun c => 0 <= c <= 65535) str -> Z.of_nat (length str) <= 65536 ->
   selfDefend.simpleHash str = sum_units str).
Proof.
  split; [apply simpleHash_sum|]. split; [|split].
  - rewrite simpleHash_sum. apply Z.mod_pos_bound. lia.
  - rewrite !simpleHash_sum, sum_units_app, <- Zplus_mod. reflexivity.
  - intros Hc Hlen. rewrite simpleHash_sum.
    pose proof (sum_units_bounds str Hc) as Hb.
    apply Z.mod_small. lia.
Qed.

Lemma sum_units_permutation (l l' : list Z) : l ≡ₚ l' -> sum_units l = sum_units l'.
Proof.
  induction 1 as [|x l l' _ IH|x y l|l l' l'' _ IH1 _ IH2];
    unfold sum_units in *; simpl; lia.
Qed.

(** X2.  [simpleHash] does not see the order of the characters: two
    strings that are rearrangements of one another have the same hash. *)
Theorem simpleHash_of_rearrangement (l l' : list Z) :
  l ≡ₚ l' -> selfDefend.simpleHash l = selfDefend.simpleHash l'.
Proof.
  intros H. rewrite !simpleHash_sum, (sum_units_permutation l l' H). reflexivity.
Qed.

Lemma simpleHash_of_rearrangement_witness :
  selfDefend.simpleHash (units "return 'ok';") = selfDefend.simpleHash (units "return 'ko';").
Proof.
  apply simpleHash_of_rearrangement.
  change (units "return 'ok';") with (units "return '" ++ [111; 107] ++ units "';").
  change (units "return 'ko';") with (units "return '" ++ [107; 111] ++ units "';").
  apply Permutation_app_head, Permutation_app_tail, perm_swap.
Defined.

(** ** The snapshot of the DOM guard *)

Lemma snapshot_from_cases selectors acc q :
  (readable (host q) selectors /\
   domGuard.snapshot_from selectors acc q
   = (Normal (acc ++ (entry_of (host q) <$> selectors)), q)) \/
  (~ readable (host q) selectors /\
   exists e, domGuard.snapshot_from selectors acc q = (Throw e, q)).
Proof.
  revert acc. induction selectors as [|s rest IH]; intros acc.
  - left. split; [constructor|]. simpl. rewrite app_nil_r. reflexivity.
  - simpl. unfold mbind, M_bind, domGuard.querySelector, get; simpl.
    destruct (elements (document (host q)) !! s) as [e|] eqn:Hel; simpl.
    + unfold domGuard.textLen, mbind, M_bind, read.
      destruct (textContent e) as [t|err] eqn:Ht; simpl.
      * match goal with |- context [domGuard.snapshot_from rest ?a q] =>
          destruct (IH a) as [[Hr Heq]|[Hn [err Heq]]] end.
        -- left. split.
           ++ constructor; [|exact Hr]. intros e' He'. rewrite Hel in He'.
              injection He' as <-. eauto.
           ++ rewrite Heq. unfold entry_of at 2. rewrite Hel, Ht, <- app_assoc.
              reflexivity.
        -- right. split; [|eauto]. intros Hr. apply Hn. inversion Hr; assumption.
      * right. split; [|eauto]. intros Hr. inversion Hr as [|? ? Hs _]; subst.
        destruct (Hs e Hel) as [t Ht']. congruence.
    + match goal with |- context [domGuard.snapshot_from rest ?a q] =>
        destruct (IH a) as [[Hr Heq]|[Hn [err Heq]]] end.
      * left. split.
        -- constructor; [|exact Hr]. intros e' He'. congruence.
        -- rewrite Heq. unfold entry_of at 2. rewrite Hel, <- app_assoc. reflexivity.
      * right. split; [|eauto]. intros Hr. apply Hn. inversion Hr; assumption.
Qed.

Lemma same_length_is_no_drift (n : nat) :
  let maxLen := Nat.max 1 n in
  Qgtb (if (maxLen <? n)%nat
        then (domGuard.num n / domGuard.num maxLen)%Q
        else (domGuard.num maxLen / domGuard.num (Nat.max 1 n))%Q)
       domGuard.TEXT_CHANGE_FACTOR = false.
Proof.
  cbv zeta. apply not_true_iff_false. rewrite ratio_agrees.
  unfold spec_ratio. rewrite quotient_exceeds_3 by lia. lia.
Qed.

(** On the host the snapshot was taken from, no entry is tampered. *)
Lemma entries_not_tampered selectors q :
  readable (host q) selectors ->
  domGuard.isTampered (entry_of (host q) <$> selectors) q = (Normal false, q).
Proof.
  induction 1 as [|s rest Hs _ IH]; simpl; [reflexivity|].
  unfold mbind, M_bind.
  assert (Hitem : domGuard.itemTampered (entry_of (host q) s) q = (Normal false, q)).
  { unfold entry_of.
    destruct (elements (document (host q)) !! s) as [e|] eqn:Hel.
    - destruct (Hs e eq_refl) as [t Ht]. rewrite Ht.
      unfold domGuard.itemTampered, domGuard.querySelector, domGuard.textLen.
      unfold_m. simpl. rewrite Hel, Ht. cbv zeta.
      rewrite same_length_is_no_drift. reflexivity.
    - unfold domGuard.itemTampered, domGuard.querySelector. unfold_m. simpl.
      rewrite Hel. reflexivity. }
  rewrite Hitem. exact IH.
Qed.

(** X3.  [snapshotDom] either records one entry per protected selector,
    in the order of [PROTECTED_SELECTORS], with [exists] telling whether
    the selector matched and [textLength] the length of the matched text
    (0 when nothing matched), or, when the text of a matched element
    cannot be read, throws; in both cases it changes nothing on the
    page. *)
Theorem snapshotDom_records_every_selector (p : Page) :
  (readable (host p) domGuard.PROTECTED_SELECTORS ->
   domGuard.snapshotDom p
   = (Normal (entry_of (host p) <$> domGuard.PROTECTED_SELECTORS), p)) /\
  (~ readable (host p) domGuard.PROTECTED_SELECTORS ->
   exists e, domGuard.snapshotDom p = (Throw e, p)) /\
  selector <$> (entry_of (host p) <$> domGuard.PROTECTED_SELECTORS)
  = domGuard.PROTECTED_SELECTORS /\
  (forall s, exists_ (entry_of (host p) s)
             = bool_decide (is_Some (elements (document (host p)) !! s))) /\
  (forall s, elements (document (host p)) !! s = None ->
             textLength (entry_of (host p) s) = 0%nat).
Proof.
  unfold domGuard.snapshotDom.
  destruct (snapshot_from_cases domGuard.PROTECTED_SELECTORS [] p)
    as [[Hr Heq]|[Hn Heq]].
  - split; [intros _; exact Heq|]. split; [intros Hn; contradiction|].
    split; [|split]; intros.
    + simpl. unfold entry_of.
      repeat match goal with |- context [elements ?d !! ?s] =>
        destruct (elements d !! s) end; reflexivity.
    + unfold entry_of. destruct (elements (document (host p)) !! s); reflexivity.
    + unfold entry_of. rewrite H. reflexivity.
  - split; [intros Hr; contradiction|]. split; [intros _; exact Heq|].
    split; [|split]; intros.
    + simpl. unfold entry_of.
      repeat match goal with |- context [elements ?d !! ?s] =>
        destruct (elements d !! s) end; reflexivity.
    + unfold entry_of. destruct (elements (document (host p)) !! s); reflexivity.
    + unfold entry_of. rewrite H. reflexivity.
Qed.

(** ** Starting the DOM guard, and [init] as a whole *)

Lemma startDomGuard_readable config p :
  readable (host p) domGuard.PROTECTED_SELECTORS ->
  domGuard.startDomGuard config p =
  (Normal tt,
   arm DomGuard 3000
     (enter DomGuard (destructure config "onTamper")
        (domGuard.set_initialSnapshot
           (entry_of (host p) <$> domGuard.PROTECTED_SELECTORS)
           (with_host (with_console (LLog, ["[domGuard] DOM guard initialized"])) p)))).
Proof.
  intros Hr. rewrite startDomGuard_eq. cbv zeta.
  set (p1 := with_host _ p).
  assert (Hr1 : readable (host p1) domGuard.PROTECTED_SELECTORS) by exact Hr.
  destruct (snapshot_from_cases domGuard.PROTECTED_SELECTORS [] p1)
    as [[_ Heq]|[Hn _]]; [|contradiction].
  fold domGuard.snapshotDom in Heq. rewrite Heq. simpl fst. cbv iota.
  set (snap := entry_of (host p1) <$> domGuard.PROTECTED_SELECTORS).
  set (q := enter DomGuard _ _).
  assert (Hq : poll DomGuard q = (Normal tt, q)).
  { rewrite poll_detect. simpl detect. unfold mbind, M_bind, get.
    change (initialSnapshot q) with (entry_of (host q) <$> domGuard.PROTECTED_SELECTORS).
    rewrite (entries_not_tampered domGuard.PROTECTED_SELECTORS q Hr). reflexivity. }
  rewrite Hq. reflexivity.
Qed.

Lemma startDomGuard_unreadable config p :
  ~ readable (host p) domGuard.PROTECTED_SELECTORS ->
  exists e,
    domGuard.startDomGuard config p =
    (Throw e, with_host (with_console (LLog, ["[domGuard] DOM guard initialized"])) p).
Proof.
  intros Hn. rewrite startDomGuard_eq. cbv zeta.
  set (p1 := with_host _ p).
  assert (Hn1 : ~ readable (host p1) domGuard.PROTECTED_SELECTORS) by exact Hn.
  destruct (snapshot_from_cases domGuard.PROTECTED_SELECTORS [] p1)
    as [[Hr _]|[_ [e Heq]]]; [contradiction|].
  fold domGuard.snapshotDom in Heq. rewrite Heq. simpl. eauto.
Qed.

(** X4.  The check that [startDomGuard] runs right after taking the
    snapshot never finds anything: when the start function returns, the
    callback has not been invoked, the flag is unset, the timer has been
    created with 3000 ms and its handle stored, and the console has gained
    only the start message. *)
Theorem startDomGuard_startup_check_is_idle (config : option Config) (p : Page) :
  (domGuard.startDomGuard config p).1 = Normal tt ->
  let p' := (domGuard.startDomGuard config p).2 in
  invoked DomGuard p' = invoked DomGuard p /\
  cancelled p' = cancelled p /\
  closures p' DomGuard
  = {| already := false; intervalId := Some (next_timer p);
       callback := destructure config "onTamper" |} /\
  timers p' = <[next_timer p := (DomGuard, 3000)]> (timers p) /\
  initialSnapshot p' = entry_of (host p) <$> domGuard.PROTECTED_SELECTORS /\
  host p' = with_console (LLog, ["[domGuard] DOM guard initialized"]) (host p).
Proof.
  destruct (snapshot_from_cases domGuard.PROTECTED_SELECTORS [] p) as [[Hr _]|[Hn _]].
  - rewrite (startDomGuard_readable config p Hr). intros _. cbv zeta. simpl snd.
    split; [|split; [|split; [|split; [|split]]]]; try reflexivity.
    + rewrite invoked_arm. reflexivity.
    + unfold arm, cancelled; simpl. rewrite omap_app. simpl. apply app_nil_r.
  - destruct (startDomGuard_unreadable config p Hn) as [e ->]. discriminate.
Qed.

Lemma startDomGuard_startup_check_is_idle_witness :
  invoked DomGuard
    (domGuard.startDomGuard (Some {[ "onTamper" := PFun app.onTamper ]})
       (load demo_host)).2
  = invoked DomGuard (load demo_host).
Proof.
  refine (proj1 (startDomGuard_startup_check_is_idle
            (Some {[ "onTamper" := PFun app.onTamper ]}) (load demo_host) _)).
  reflexivity.
Defined.



Lemma unreadable_breaks_readable h s e err selectors :
  s ∈ selectors ->
  elements (document h) !! s = Some e ->
  textContent e = Raises err ->
  ~ readable h selectors.
Proof.
  intros Hin Hel Ht Hr. unfold readable in Hr. rewrite Forall_forall in Hr.
  destruct (Hr s Hin e Hel) as [t Ht']. congruence.
Qed.

(** X6.  [startDomGuard] takes its snapshot outside of any try block.  If
    the text of one protected element cannot be read when the page starts,
    the exception leaves [startDomGuard] and [init]: no timer is created,
    [startSelfDefend] is never reached, the canary handle is not
    published, and no detector callback is ever invoked afterwards. *)
Theorem unreadable_element_aborts_init
    (h : Host) (s : string) (e : Element) (err : exn) :
  s ∈ domGuard.PROTECTED_SELECTORS ->
  elements (document h) !! s = Some e ->
  textContent e = Raises err ->
  exists err' p',
    app.init (load h) = (Throw err', p') /\
    timers p' = ∅ /\
    (forall d, closures p' d = fresh_closure) /\
    selfDefendInfo (window (host p')) = selfDefendInfo (window h) /\
    (forall es d, invoked d (run es p') = [] /\ timers (run es p') = ∅).
Proof.
  intros Hin Hel Ht.
  pose proof (unreadable_breaks_readable h s e err _ Hin Hel Ht) as Hn.
  rewrite init_eq.
  set (p1 := with_host _ (load h)).
  assert (Hn1 : ~ readable (host p1) domGuard.PROTECTED_SELECTORS) by exact Hn.
  destruct (startDomGuard_unreadable (Some {[ "onTamper" := PFun app.onTamper ]}) p1 Hn1)
    as [err' Heq].
  rewrite Heq. eexists _, _. split; [reflexivity|].
  split; [reflexivity|]. split; [reflexivity|]. split; [reflexivity|].
  intros es d. split.
  - apply (run_silent d es). split; reflexivity.
  - apply map_eq. intros i. rewrite lookup_empty.
    destruct (timers (run es _) !! i) as [x|] eqn:Hx; [|reflexivity].
    apply (st_timers _ _ (run_stable es _)) in Hx. simpl in Hx.
    rewrite lookup_empty in Hx. discriminate.
Qed.

Lemma unreadable_element_aborts_init_witness :
  exists err' p',
    app.init (load unreadable_host) = (Throw err', p') /\
    timers p' = ∅ /\
    (forall d, closures p' d = fresh_closure) /\
    selfDefendInfo (window (host p')) = selfDefendInfo (window unreadable_host) /\
    (forall es d, invoked d (run es p') = [] /\ timers (run es p') = ∅).
Proof.
  refine (unreadable_element_aborts_init unreadable_host "#task-form"
            {| textContent := Raises "textContent is not readable";
               opacity := "1"; pointerEvents := "auto" |}
            "textContent is not readable" _ _ _).
  - repeat constructor.
  - apply lookup_insert_eq.
  - reflexivity.
Defined.

(** ** The order of the anti-debug heuristics *)





(** ** The loop of [isTampered] *)

Lemma itemTampered_false_pure item p :
  (domGuard.itemTampered item p).1 = Normal false ->
  domGuard.itemTampered item p = (Normal false, p).
Proof.
  unfold domGuard.itemTampered, domGuard.querySelector, domGuard.textLen. unfold_m.
  simpl. destruct (elements (document (host p)) !! selector item) as [e|];
    destruct (exists_ item); try reflexivity; try discriminate.
  destruct (textContent e) as [t|err]; simpl; [|discriminate].
  destruct (Qgtb _ _); [discriminate | reflexivity].
Qed.

Lemma isTampered_false_pure snapshot p :
  (domGuard.isTampered snapshot p).1 = Normal false ->
  domGuard.isTampered snapshot p = (Normal false, p).
Proof.
  induction snapshot as [|item rest IH]; simpl; [reflexivity|].
  unfold mbind, M_bind.
  destruct (domGuard.itemTampered item p) as [[[]|e] q] eqn:Hitem; simpl;
    try discriminate.
  pose proof (itemTampered_false_pure item p) as Hp. rewrite Hitem in Hp.
  specialize (Hp eq_refl). injection Hp as <-. exact IH.
Qed.

(** X8.  [isTampered] stops at the first entry that decides the round.
    When the entries before [item] are found untouched, the result for
    [before ++ item :: after] is the result for [item] alone whenever
    [item] is reported as tampered or reading its text raises: the
    entries after it are not looked at, so an entry whose text cannot be
    read hides any tampering of the entries that follow it. *)
Theorem isTampered_stops_at_first_hit
    (before after : list SnapshotItem) (item : SnapshotItem) (p : Page) :
  (domGuard.isTampered before p).1 = Normal false ->
  (domGuard.itemTampered item p).1 <> Normal false ->
  domGuard.isTampered (before ++ item :: after) p = domGuard.itemTampered item p.
Proof.
  intros Hb Hitem. apply isTampered_false_pure in Hb.
  revert Hb. induction before as [|b before IH]; simpl.
  - intros _. unfold mbind, M_bind.
    destruct (domGuard.itemTampered item p) as [[[]|e] q]; simpl in *;
      try reflexivity. contradiction.
  - unfold mbind, M_bind.
    destruct (domGuard.itemTampered b p) as [[[]|e] q] eqn:Hbq; simpl;
      try discriminate.
    pose proof (itemTampered_false_pure b p) as Hp. rewrite Hbq in Hp.
    specialize (Hp eq_refl). injection Hp as <-. exact IH.
Qed.

Lemma isTampered_stops_at_first_hit_witness :
  domGuard.isTampered
    ([{| selector := ".app-main"; exists_ := true; textLength := 12 |}]
     ++ {| selector := "#task-form"; exists_ := true; textLength := 100 |}
     :: [{| selector := "#gone"; exists_ := true; textLength := 1 |}])
    (load demo_host)
  = domGuard.itemTampered
      {| selector := "#task-form"; exists_ := true; textLength := 100 |}
      (load demo_host).
Proof.
  apply isTampered_stops_at_first_hit.
  - reflexivity.
  - vm_compute. discriminate.
Defined.

(** ** A detector that fires on a tick *)



(** ** Detectors do not interfere *)

(** X10.  A tick of one detector leaves the others alone: their captured
    variables and the record of their callback invocations are unchanged,
    the snapshot and the baseline are unchanged, and the only timer that
    can disappear is the one whose handle the ticking detector holds. *)
Theorem a_tick_leaves_other_detectors_alone
    (d d' : detector) (p : Page) (id' : nat) :
  d' <> d ->
  let p' := (handler d p).2 in
  closures p' d' = closures p d' /\
  invoked d' p' = invoked d' p /\
  initialSnapshot p' = initialSnapshot p /\
  sd_originalHash p' = sd_originalHash p /\
  (intervalId (closures p d) <> Some id' -> timers p' !! id' = timers p !! id').
Proof.
  intros Hne p'. unfold p'. rewrite handler_poll.
  destruct (already (closures p d)) eqn:Hfl; [simpl; auto|].
  rewrite poll_detect.
  pose proof (detect_host_only d p) as Hq.
  destruct (detect d p) as [[[reason|]|e] q]; simpl in Hq; red in Hq.
  - destruct (caught_trigger d reason q) as [g Hg]. rewrite Hg.
    assert (Hfl' : already (closures q d) = false) by (rewrite Hq; exact Hfl).
    pose proof (trigger_stable d reason q) as Hst.
    split_and!.
    + change (closures (with_host g ?x) d') with (closures x d').
      rewrite trigger_other_closure by exact Hne. rewrite Hq. reflexivity.
    + change (invoked d' (with_host g ?x)) with (invoked d' x).
      rewrite trigger_invoked_other by exact Hne. rewrite Hq. reflexivity.
    + change (initialSnapshot (with_host g ?x)) with (initialSnapshot x).
      rewrite (st_snapshot _ _ Hst), Hq. reflexivity.
    + change (sd_originalHash (with_host g ?x)) with (sd_originalHash x).
      rewrite (st_hash _ _ Hst), Hq. reflexivity.
    + intros Hh. change (timers (with_host g ?x)) with (timers x).
      rewrite trigger_timers by exact Hfl'.
      replace (closures q d) with (closures p d) by (rewrite Hq; reflexivity).
      replace (timers q) with (timers p) by (rewrite Hq; reflexivity).
      destruct (intervalId (closures p d)) as [i|]; [|reflexivity].
      apply lookup_delete_ne. congruence.
  - simpl. rewrite Hq. split_and!; reflexivity.
  - simpl. rewrite Hq. split_and!; reflexivity.
Qed.

Lemma a_tick_leaves_other_detectors_alone_witness :
  closures (handler DomGuard (app.init (load demo_host)).2).2 SelfDefend
  = closures (app.init (load demo_host)).2 SelfDefend.
Proof.
  refine (proj1 (a_tick_leaves_other_detectors_alone DomGuard SelfDefend
            (app.init (load demo_host)).2 2%nat _)).
  discriminate.
Defined.

(** ** What the lock action changes *)

Lemma lockApp_elements message h s :
  elements (document (app.lockApp message h)) !! s =
  if decide (s = "#task-form") then
    (fun form => {| textContent := textContent form;
                    opacity := "0.5"; pointerEvents := "none" |})
      <$> elements (document h) !! s
  else if decide (s = "#security-message") then
    (fun el => {| textContent := Val (Some (app.or_empty message));
                  opacity := opacity el; pointerEvents := pointerEvents el |})
      <$> elements (document h) !! s
  else elements (document h) !! s.
Proof.
  unfold app.lockApp, app.setSecurityMessage, app.getElementById, app.set_element.
  cbv zeta.
  change ("#" +:+ "security-message") with "#security-message".
  change ("#" +:+ "task-form") with "#task-form".
  destruct (elements (document h) !! "#security-message") as [m|] eqn:Hm; simpl.
  - rewrite lookup_insert_ne by discriminate.
    destruct (elements (document h) !! "#task-form") as [form|] eqn:Hf; simpl.
    + destruct (decide (s = "#task-form")) as [->|Hs1].
      * rewrite lookup_insert_eq, Hf. reflexivity.
      * rewrite lookup_insert_ne by congruence.
        destruct (decide (s = "#security-message")) as [->|Hs2].
        -- rewrite lookup_insert_eq, Hm. reflexivity.
        -- rewrite lookup_insert_ne by congruence. reflexivity.
    + destruct (decide (s = "#task-form")) as [->|Hs1].
      * rewrite lookup_insert_ne by discriminate. rewrite Hf. reflexivity.
      * destruct (decide (s = "#security-message")) as [->|Hs2].
        -- rewrite lookup_insert_eq, Hm. reflexivity.
        -- rewrite lookup_insert_ne by congruence. reflexivity.
  - destruct (elements (document h) !! "#task-form") as [form|] eqn:Hf; simpl.
    + destruct (decide (s = "#task-form")) as [->|Hs1].
      * rewrite lookup_insert_eq, Hf. reflexivity.
      * rewrite lookup_insert_ne by congruence.
        destruct (decide (s = "#security-message")) as [->|Hs2];
          [rewrite Hm|]; reflexivity.
    + destruct (decide (s = "#task-form")) as [->|Hs1]; [rewrite Hf; reflexivity|].
      destruct (decide (s = "#security-message")) as [->|Hs2];
        [rewrite Hm|]; reflexivity.
Qed.

(** X11.  [lockApp] changes the text of the message area, the style of
    the task form and the disabled flag of the buttons, and nothing else:
    every other element, the window and the labels of the buttons are as
    before, no element appears or disappears, and the text of the form is
    kept.  Running it again with the same message leaves the document as
    the first run left it. *)
Theorem lockApp_changes_only_its_targets (message : string) (h : Host) :
  (forall s, s <> "#task-form" -> s <> "#security-message" ->
     elements (document (app.lockApp message h)) !! s = elements (document h) !! s) /\
  (forall s, is_Some (elements (document (app.lockApp message h)) !! s)
             <-> is_Some (elements (document h) !! s)) /\
  (forall form, elements (document h) !! "#task-form" = Some form ->
     elements (document (app.lockApp message h)) !! "#task-form"
     = Some {| textContent := textContent form;
               opacity := "0.5"; pointerEvents := "none" |}) /\
  window (app.lockApp message h) = window h /\
  label <$> buttons (document (app.lockApp message h)) = label <$> buttons (document h) /\
  document (app.lockApp message (app.lockApp message h))
  = document (app.lockApp message h).
Proof.
  split_and!.
  - intros s H1 H2. rewrite lockApp_elements.
    rewrite decide_False by exact H1. rewrite decide_False by exact H2. reflexivity.
  - intros s. rewrite lockApp_elements.
    repeat case_decide; rewrite ?fmap_is_Some; reflexivity.
  - intros form Hf. rewrite lockApp_elements, decide_True by reflexivity.
    rewrite Hf. reflexivity.
  - unfold app.lockApp, app.setSecurityMessage. cbv zeta.
    destruct (app.getElementById (document h) "security-message"); simpl;
      match goal with
      | |- context [app.getElementById ?doc "task-form"] =>
          destruct (app.getElementById doc "task-form")
      end; reflexivity.
  - rewrite lockApp_buttons, <- list_fmap_compose. reflexivity.
  - assert (He : elements (document (app.lockApp message (app.lockApp message h)))
                 = elements (document (app.lockApp message h))).
    { apply map_eq. intros s. rewrite (lockApp_elements message (app.lockApp message h)).
      rewrite !lockApp_elements.
      repeat case_decide; try congruence;
        destruct (elements (document h) !! s); reflexivity. }
    assert (Hb : buttons (document (app.lockApp message (app.lockApp message h)))
                 = buttons (document (app.lockApp message h))).
    { rewrite !lockApp_buttons. apply disable_twice. }
    destruct (document (app.lockApp message (app.lockApp message h))) as [e1 b1].
    destruct (document (app.lockApp message h)) as [e2 b2].
    simpl in He, Hb. congruence.
Qed.

(** * The task list *)

(** ** What the handlers do to the list *)

Lemma renderTasks_view_only ts filter v h :
  window (ui.renderTasks ts filter v h).2 = window h /\
  console (ui.renderTasks ts filter v h).2 = console h.
Proof.
  unfold ui.renderTasks.
  destruct (app.getElementById (document h) "task-list");
    destruct (app.getElementById (document h) "empty-state");
    try destruct (ui.visible ts filter); auto.
Qed.

Lemma save_and_render_tasks `{Json} a h :
  tasks (handlers.save_and_render a h).1 = tasks a /\
  currentFilter (handlers.save_and_render a h).1 = currentFilter a.
Proof.
  unfold handlers.save_and_render, storage.saveTasks.
  destruct (setItem _ _ _); simpl;
    destruct (ui.renderTasks _ _ _ _); auto.
Qed.

Lemma toggle_toggle id t : handlers.toggle id (handlers.toggle id t) = t.
Proof.
  unfold handlers.toggle. destruct (String.eqb (task.id t) id) eqn:He; simpl.
  - rewrite He. destruct t; simpl. rewrite negb_involutive. reflexivity.
  - rewrite He. reflexivity.
Qed.

Lemma toggle_id id t : task.id (handlers.toggle id t) = task.id t.
Proof. unfold handlers.toggle. destruct (String.eqb _ _); reflexivity. Qed.

(** X12.  [toggleTask] maps over the list: it keeps the order, the
    identifiers, titles and descriptions, flips [completed] on every task
    with the given identifier and on no other; with an identifier that no
    task has it leaves the list as it is, and toggling the same identifier
    twice gives the list back. *)
Theorem toggleTask_flips_and_restores `{Json} (id : string) (a : App) (h : Host) :
  let a1 := (handlers.toggleTask id a h).1 in
  let a2 := (handlers.toggleTask id a1 (handlers.toggleTask id a h).2).1 in
  tasks a1 = handlers.toggle id <$> tasks a /\
  task.id <$> tasks a1 = task.id <$> tasks a /\
  task.title <$> tasks a1 = task.title <$> tasks a /\
  task.desc <$> tasks a1 = task.desc <$> tasks a /\
  (forall i t, tasks a !! i = Some t ->
     exists t', tasks a1 !! i = Some t' /\
       task.completed t'
       = if String.eqb (task.id t) id then negb (task.completed t)
         else task.completed t) /\
  (id ∉ (task.id <$> tasks a) -> tasks a1 = tasks a) /\
  tasks a2 = tasks a.
Proof.
  cbv zeta. unfold handlers.toggleTask.
  rewrite !(proj1 (save_and_render_tasks _ _)). simpl.
  rewrite ?(proj1 (save_and_render_tasks _ _)). simpl.
  split_and!.
  - reflexivity.
  - rewrite <- list_fmap_compose. apply list_fmap_ext. intros i t _. apply toggle_id.
  - rewrite <- list_fmap_compose. apply list_fmap_ext. intros i t _.
    simpl. unfold handlers.toggle. destruct (String.eqb _ _); reflexivity.
  - rewrite <- list_fmap_compose. apply list_fmap_ext. intros i t _.
    simpl. unfold handlers.toggle. destruct (String.eqb _ _); reflexivity.
  - intros i t Hi. exists (handlers.toggle id t). split.
    + rewrite list_lookup_fmap, Hi. reflexivity.
    + unfold handlers.toggle. destruct (String.eqb _ _); reflexivity.
  - intros Hnot. rewrite <- (list_fmap_id (tasks a)) at 2.
    apply list_fmap_ext. intros i t Hi. simpl. unfold handlers.toggle.
    destruct (String.eqb (task.id t) id) eqn:He; [|reflexivity].
    apply String.eqb_eq in He. exfalso. apply Hnot.
    apply list_elem_of_fmap. exists t. split; [congruence|].
    eapply list_elem_of_lookup_2, Hi.
  - rewrite <- list_fmap_compose. rewrite <- (list_fmap_id (tasks a)) at 2.
    apply list_fmap_ext. intros i t _. apply toggle_toggle.
Qed.

(** X13.  [deleteTask] keeps exactly the tasks whose identifier differs
    from the given one, in their order; it removes every task with that
    identifier, however many there are, and deleting an identifier that no
    task has, or deleting twice, changes nothing more. *)
Theorem deleteTask_removes_every_match `{Json} (id : string) (a : App) (h : Host) :
  let a1 := (handlers.deleteTask id a h).1 in
  let a2 := (handlers.deleteTask id a1 (handlers.deleteTask id a h).2).1 in
  (forall t, t ∈ tasks a1 <-> t ∈ tasks a /\ task.id t <> id) /\
  sublist (tasks a1) (tasks a) /\
  (id ∉ (task.id <$> tasks a1)) /\
  (id ∉ (task.id <$> tasks a) -> tasks a1 = tasks a) /\
  tasks a2 = tasks a1.
Proof.
  cbv zeta. unfold handlers.deleteTask.
  rewrite !(proj1 (save_and_render_tasks _ _)). simpl.
  rewrite ?(proj1 (save_and_render_tasks _ _)). simpl.
  set (keep := fun t : task.Task => negb (String.eqb (task.id t) id)).
  assert (Hkeep : forall t, keep t = true <-> task.id t <> id).
  { intros t. unfold keep. rewrite negb_true_iff, String.eqb_neq. reflexivity. }
  assert (Hin : forall l t, t ∈ List.filter keep l <-> t ∈ l /\ task.id t <> id).
  { intros l t. rewrite !list_elem_of_In, filter_In, Hkeep. reflexivity. }
  assert (Hsame : forall l, (forall t, t ∈ l -> task.id t <> id) -> List.filter keep l = l).
  { induction l as [|t l IH]; intros Hl; simpl; [reflexivity|].
    rewrite (proj2 (Hkeep t)) by (apply Hl; left).
    f_equal. apply IH. intros t' Ht'. apply Hl. right. exact Ht'. }
  split_and!.
  - apply Hin.
  - induction (tasks a) as [|t l IH]; simpl; [constructor|].
    destruct (keep t); [apply sublist_skip | apply sublist_cons]; exact IH.
  - intros Hid. apply list_elem_of_fmap in Hid as (t & Ht & Hin').
    apply Hin in Hin' as [_ Hne]. congruence.
  - intros Hnot. apply Hsame. intros t Ht Heq. apply Hnot.
    apply list_elem_of_fmap. exists t. split; [congruence | exact Ht].
  - apply Hsame. intros t Ht. apply Hin in Ht. tauto.
Qed.

(** X14.  The three views of the list: ["active"] shows the tasks that
    are not completed and ["completed"] those that are, each in the order
    of the list, so that every task is in exactly one of the two; any
    other filter value shows all tasks. *)
Theorem visible_splits_the_list (ts : list task.Task) (filter : string) :
  ui.visible ts "active" ++ ui.visible ts "completed" ≡ₚ ts /\
  (forall t, t ∈ ui.visible ts "active" <-> t ∈ ts /\ task.completed t = false) /\
  (forall t, t ∈ ui.visible ts "completed" <-> t ∈ ts /\ task.completed t = true) /\
  sublist (ui.visible ts filter) ts /\
  (filter <> "active" -> filter <> "completed" -> ui.visible ts filter = ts).
Proof.
  split_and!.
  - unfold ui.visible; simpl.
    induction ts as [|t ts IH]; simpl; [reflexivity|].
    destruct (task.completed t); simpl.
    + rewrite <- Permutation_middle. constructor. exact IH.
    + constructor. exact IH.
  - intros t. unfold ui.visible; simpl.
    rewrite !list_elem_of_In, filter_In, negb_true_iff. reflexivity.
  - intros t. unfold ui.visible; simpl.
    rewrite !list_elem_of_In, filter_In. reflexivity.
  - unfold ui.visible.
    assert (Hs : forall (P : task.Task -> bool), sublist (List.filter P ts) ts).
    { intros P. induction ts as [|t l IH]; simpl; [constructor|].
      destruct (P t); [apply sublist_skip | apply sublist_cons]; exact IH. }
    destruct (String.eqb filter "active"); [apply Hs|].
    destruct (String.eqb filter "completed"); [apply Hs | reflexivity].
  - intros H1 H2. unfold ui.visible.
    apply String.eqb_neq in H1, H2. rewrite H1, H2. reflexivity.
Qed.

(** ** Rendering and storing *)

Lemma renderTasks_spec ts filter v h :
  has_list h ->
  let r := ui.renderTasks ts filter v h in
  listItems r.1 = ui.render <$> ui.visible ts filter /\
  emptyDisplay r.1 = (if ui.visible ts filter is [] then "block" else "none") /\
  (exists listEl,
     elements (document r.2) !! "#task-list" = Some listEl /\
     textContent listEl = Val (Some (ui.list_text (listItems r.1)))) /\
  (forall s, s <> "#task-list" ->
     elements (document r.2) !! s = elements (document h) !! s).
Proof.
  intros [[l Hl] [e He]]. cbv zeta. unfold ui.renderTasks, app.getElementById.
  change ("#" +:+ "task-list") with "#task-list".
  change ("#" +:+ "empty-state") with "#empty-state".
  rewrite Hl, He.
  destruct (ui.visible ts filter) as [|t rest]; simpl;
    (split_and!; [reflexivity | reflexivity | | ]).
  - eexists. split; [apply lookup_insert_eq | reflexivity].
  - intros s Hs. apply lookup_insert_ne. intros Heq. apply Hs. rewrite <- Heq. reflexivity.
  - eexists. split; [apply lookup_insert_eq | reflexivity].
  - intros s Hs. apply lookup_insert_ne. intros Heq. apply Hs. rewrite <- Heq. reflexivity.
Qed.

Lemma renderTasks_has_list ts filter v h :
  has_list h -> has_list (ui.renderTasks ts filter v h).2.
Proof.
  intros Hh. destruct (renderTasks_spec ts filter v h Hh) as (_ & _ & [l [Hl _]] & Hfr).
  destruct Hh as [_ He]. split; [rewrite Hl; eauto|].
  rewrite Hfr by discriminate. exact He.
Qed.

Lemma saveTasks_document `{Json} ts a h :
  document (storage.saveTasks ts a h).2 = document h /\
  window (storage.saveTasks ts a h).2 = window h /\
  view (storage.saveTasks ts a h).1 = view a /\
  tasks (storage.saveTasks ts a h).1 = tasks a /\
  currentFilter (storage.saveTasks ts a h).1 = currentFilter a.
Proof. unfold storage.saveTasks. destruct (setItem _ _ _); simpl; auto. Qed.

(** After [saveTasks(tasks); renderTasks(tasks, currentFilter)] the view
    is the one for the tasks and the filter, and only [#task-list] has
    changed in the document. *)
Lemma save_and_render_spec `{Json} a h :
  has_list h ->
  let r := handlers.save_and_render a h in
  shows r.1 r.2 /\ has_list r.2 /\
  window r.2 = window h /\
  (forall s, s <> "#task-list" ->
     elements (document r.2) !! s = elements (document h) !! s).
Proof.
  intros Hh. cbv zeta. unfold handlers.save_and_render.
  destruct (saveTasks_document (tasks a) a h) as (Hd & Hw & Hv & Ht & Hf).
  destruct (storage.saveTasks (tasks a) a h) as [a1 h1]. simpl in *.
  assert (Hh1 : has_list h1) by (unfold has_list; rewrite Hd; exact Hh).
  pose proof (renderTasks_spec (tasks a1) (currentFilter a1) (view a1) h1 Hh1) as Hr.
  pose proof (renderTasks_has_list (tasks a1) (currentFilter a1) (view a1) h1 Hh1) as Hl.
  pose proof (renderTasks_view_only (tasks a1) (currentFilter a1) (view a1) h1) as Hvo.
  destruct (ui.renderTasks (tasks a1) (currentFilter a1) (view a1) h1) as [v2 h2].
  simpl in *. destruct Hr as (R1 & R2 & R3 & R4). destruct Hvo as (V1 & _).
  split_and!.
  - unfold shows; simpl. auto.
  - exact Hl.
  - congruence.
  - intros s Hs. rewrite R4 by exact Hs. rewrite Hd. reflexivity.
Qed.

Lemma perform_spec `{Json} act a h :
  has_list h ->
  let r := perform act a h in
  shows r.1 r.2 /\ has_list r.2 /\
  window r.2 = window h /\
  (forall s, s <> "#task-list" ->
     elements (document r.2) !! s = elements (document h) !! s).
Proof.
  intros Hh. destruct act as [uuid title desc|id|id|filter]; simpl;
    try apply save_and_render_spec; try exact Hh.
  unfold handlers.setFilter. cbv zeta.
  set (a1 := set_currentFilter filter a).
  pose proof (renderTasks_spec (tasks a1) (currentFilter a1) (view a1) h Hh) as Hr.
  pose proof (renderTasks_has_list (tasks a1) (currentFilter a1) (view a1) h Hh) as Hl.
  pose proof (renderTasks_view_only (tasks a1) (currentFilter a1) (view a1) h) as Hvo.
  destruct (ui.renderTasks (tasks a1) (currentFilter a1) (view a1) h) as [v2 h2].
  simpl in *. destruct Hr as (R1 & R2 & R3 & R4). destruct Hvo as (V1 & _).
  split_and!; auto. unfold shows; simpl. auto.
Qed.

(** X15.  On a page that has the list and the empty-state element, after
    any sequence of user actions the rendered list is exactly the one for
    the current tasks and filter: one item per visible task, in order,
    the empty-state element displayed exactly when there is none, and the
    text of [#task-list] is the text of these items. *)
Theorem actions_keep_the_view_in_step `{Json}
    (acts : list action) (act : action) (a : App) (h : Host) :
  has_list h ->
  let r := perform_all (acts ++ [act]) a h in
  shows r.1 r.2 /\ has_list r.2.
Proof.
  intros Hh. cbv zeta. unfold perform_all. rewrite fold_left_app. simpl.
  assert (Hpre : has_list (fold_left (fun s act => perform act s.1 s.2) acts (a, h)).2).
  { revert a h Hh. induction acts as [|x acts IH]; intros a h Hh; simpl.
    - exact Hh.
    - destruct (perform_spec x a h Hh) as (_ & P2 & _).
      destruct (perform x a h) as [a' h']. simpl in *. apply IH, P2. }
  destruct (fold_left _ acts (a, h)) as [a' h']. simpl in *.
  destruct (perform_spec act a' h' Hpre) as (P1 & P2 & _).
  split; assumption.
Qed.

Lemma actions_keep_the_view_in_step_witness :
  shows
    (@perform_all unary_json ([Add "1" "Buy milk" ""] ++ [SetFilter "completed"])
       (handlers.initial {| items := ∅; capacity := 100; denied := false |}
          {| listItems := []; emptyDisplay := "" |})
       (with_document (app.set_element "empty-state" (el "No tasks yet")) demo_host)).1
    (@perform_all unary_json ([Add "1" "Buy milk" ""] ++ [SetFilter "completed"])
       (handlers.initial {| items := ∅; capacity := 100; denied := false |}
          {| listItems := []; emptyDisplay := "" |})
       (with_document (app.set_element "empty-state" (el "No tasks yet")) demo_host)).2.
Proof.
  refine (proj1 (@actions_keep_the_view_in_step unary_json
            [Add "1" "Buy milk" ""] (SetFilter "completed") _ _ _)).
  split; eexists; vm_compute; reflexivity.
Defined.

Lemma save_and_render_storage `{Json} a h :
  let r := handlers.save_and_render a h in
  let text := JSON_stringify (tasks a) in
  (denied (localStorage a) = false ->
   (String.length text <= capacity (localStorage a))%nat ->
   items (localStorage r.1) = <[storage.STORAGE_KEY := text]> (items (localStorage a)) /\
   console r.2 = console h) /\
  (denied (localStorage a) = true \/
   (capacity (localStorage a) < String.length text)%nat ->
   localStorage r.1 = localStorage a /\
   exists err,
     console r.2
     = console h ++ [(LWarn, ["Failed to save tasks to localStorage"; err])]).
Proof.
  cbv zeta. unfold handlers.save_and_render, storage.saveTasks, setItem.
  split.
  - intros Hd Hc. rewrite Hd. apply Nat.ltb_ge in Hc. rewrite Hc. simpl.
    match goal with |- context [ui.renderTasks ?t ?f ?v ?x] =>
      pose proof (renderTasks_view_only t f v x) as (_ & Hcon);
      destruct (ui.renderTasks t f v x) end. simpl in *. auto.
  - intros Hrej.
    destruct (denied (localStorage a)) eqn:Hd.
    + simpl.
      match goal with |- context [ui.renderTasks ?t ?f ?v ?x] =>
        pose proof (renderTasks_view_only t f v x) as (_ & Hcon);
        destruct (ui.renderTasks t f v x) end. simpl in *. eauto.
    + destruct Hrej as [Hrej|Hrej]; [discriminate|].
      apply Nat.ltb_lt in Hrej. rewrite Hrej. simpl.
      match goal with |- context [ui.renderTasks ?t ?f ?v ?x] =>
        pose proof (renderTasks_view_only t f v x) as (_ & Hcon);
        destruct (ui.renderTasks t f v x) end. simpl in *. eauto.
Qed.

(** X16.  Adding, toggling and deleting write the new list to
    [localStorage] under the one key of [storage.js]; when the storage
    refuses the write (access denied, or the text too long), the handler
    logs one warning and goes on: the list in memory and on screen is the
    new one while the stored one stays as it was.  Changing the filter
    writes nothing. *)
Theorem handlers_store_the_new_list `{Json} (act : action) (a : App) (h : Host) :
  let r := perform act a h in
  let text := JSON_stringify (tasks r.1) in
  (forall f, act = SetFilter f ->
     localStorage r.1 = localStorage a /\ tasks r.1 = tasks a /\
     console r.2 = console h) /\
  ((forall f, act <> SetFilter f) ->
   (denied (localStorage a) = false ->
    (String.length text <= capacity (localStorage a))%nat ->
    items (localStorage r.1) = <[storage.STORAGE_KEY := text]> (items (localStorage a)) /\
    console r.2 = console h) /\
   (denied (localStorage a) = true \/
    (capacity (localStorage a) < String.length text)%nat ->
    localStorage r.1 = localStorage a /\
    exists err,
      console r.2
      = console h ++ [(LWarn, ["Failed to save tasks to localStorage"; err])])).
Proof.
  cbv zeta. split.
  - intros f ->. simpl. unfold handlers.setFilter. cbv zeta.
    match goal with |- context [ui.renderTasks ?t ?f ?v ?x] =>
      pose proof (renderTasks_view_only t f v x) as (_ & Hcon);
      destruct (ui.renderTasks t f v x) end. simpl in *. auto.
  - intros Hact. destruct act as [uuid title desc|id|id|filter]; simpl.
    + unfold handlers.addTask. rewrite (proj1 (save_and_render_tasks _ _)).
      exact (save_and_render_storage (set_tasks _ a) h).
    + unfold handlers.toggleTask. rewrite (proj1 (save_and_render_tasks _ _)).
      exact (save_and_render_storage (set_tasks _ a) h).
    + unfold handlers.deleteTask. rewrite (proj1 (save_and_render_tasks _ _)).
      exact (save_and_render_storage (set_tasks _ a) h).
    + exfalso. apply (Hact filter). reflexivity.
Qed.

(** X17.  What [saveTasks] wrote, [loadTasks] reads back: when the
    storage accepts the write and the platform's [JSON.parse] inverts
    [JSON.stringify] on this list, [loadTasks] after [saveTasks ts]
    returns [ts] and logs nothing. *)
Theorem saved_tasks_load_back `{Json} (ts : list task.Task) (a : App) (h : Host) :
  denied (localStorage a) = false ->
  (String.length (JSON_stringify ts) <= capacity (localStorage a))%nat ->
  JSON_stringify ts <> "" ->
  JSON_parse (JSON_stringify ts) = Val (TaskArray ts) ->
  storage.loadTasks (storage.saveTasks ts a h).1 (storage.saveTasks ts a h).2 = (ts, h).
Proof.
  intros Hd Hc Hne Hp. unfold storage.saveTasks, storage.loadTasks, setItem, getItem.
  rewrite Hd. apply Nat.ltb_ge in Hc. rewrite Hc. simpl. rewrite ?Hd.
  rewrite lookup_insert_eq. simpl.
  destruct (JSON_stringify ts) eqn:Hs; [contradiction|]. simpl.
  rewrite Hp. reflexivity.
Qed.

Lemma saved_tasks_load_back_witness :
  @storage.loadTasks unary_json
    (@storage.saveTasks unary_json [handlers.createTask "1" "t" ""]
       (handlers.initial {| items := ∅; capacity := 100; denied := false |}
          {| listItems := []; emptyDisplay := "" |}) demo_host).1
    (@storage.saveTasks unary_json [handlers.createTask "1" "t" ""]
       (handlers.initial {| items := ∅; capacity := 100; denied := false |}
          {| listItems := []; emptyDisplay := "" |}) demo_host).2
  = ([handlers.createTask "1" "t" ""], demo_host).
Proof.
  apply (@saved_tasks_load_back unary_json).
  - reflexivity.
  - vm_compute. lia.
  - discriminate.
  - reflexivity.
Defined.

(** * The task list under the DOM guard *)

Lemma string_length_app (s1 s2 : string) :
  String.length (s1 +:+ s2) = (String.length s1 + String.length s2)%nat.
Proof. induction s1 as [|c s1 IH]; simpl; [reflexivity|]. rewrite IH. reflexivity. Qed.

Lemma list_text_nil_length : String.length (ui.list_text []) = 0%nat.
Proof. reflexivity. Qed.

(** The text of a list with at least one item has six characters or more:
    the label of the Delete button. *)
Lemma list_text_cons_length li lis :
  (6 <= String.length (ui.list_text (li :: lis)))%nat.
Proof.
  simpl. unfold ui.li_text. rewrite !string_length_app. simpl. lia.
Qed.

Lemma loadTasks_document `{Json} a h :
  document (storage.loadTasks a h).2 = document h /\
  window (storage.loadTasks a h).2 = window h.
Proof.
  unfold storage.loadTasks. destruct (getItem _ _) as [raw|e]; simpl; auto.
  destruct (storage.falsy_raw raw); simpl; auto.
  destruct (JSON_parse _) as [[|ts]|e]; simpl; auto.
Qed.

Lemma entry_not_tampered_on q h s :
  elements (document (host q)) !! s = elements (document h) !! s ->
  readable h [s] ->
  domGuard.itemTampered (entry_of h s) q = (Normal false, q).
Proof.
  intros Hsame Hr. inversion Hr as [|? ? Hs _]; subst.
  unfold entry_of.
  destruct (elements (document h) !! s) as [e|] eqn:Hel.
  - destruct (Hs e eq_refl) as [t Ht]. rewrite Ht.
    unfold domGuard.itemTampered, domGuard.querySelector, domGuard.textLen.
    unfold_m. simpl. rewrite Hsame, Ht. cbv zeta.
    rewrite same_length_is_no_drift. reflexivity.
  - unfold domGuard.itemTampered, domGuard.querySelector. unfold_m. simpl.
    rewrite Hsame. reflexivity.
Qed.

(** The round of [isTampered] for an entry whose element is there and
    readable: the verdict, and the page with the warning when the verdict
    is positive. *)
Lemma itemTampered_present_page p item e t :
  elements (document (host p)) !! selector item = Some e ->
  textContent e = Val t ->
  exists_ item = true ->
  let cur := String.length (default "" t) in
  domGuard.itemTampered item p =
  if Qgtb (spec_ratio cur (textLength item)) 3
  then (Normal true,
        with_host (with_console
          (LWarn, ["[domGuard] Element text length changed a lot:"; selector item;
                   "initial ="; pretty (textLength item);
                   "current ="; pretty cur])) p)
  else (Normal false, p).
Proof.
  intros Hel Ht Hex. cbv zeta.
  unfold domGuard.itemTampered, domGuard.querySelector, domGuard.textLen. unfold_m.
  rewrite Hel, Hex, Ht. cbv zeta.
  pose proof (ratio_agrees (String.length (default "" t)) (textLength item)) as Hr.
  cbv zeta in Hr.
  rewrite <- Qgtb_lt in Hr. apply eq_true_iff_eq in Hr. rewrite Hr. clear Hr.
  destruct (Qgtb _ _); reflexivity.
Qed.

Lemma detectors_started h :
  readable h domGuard.PROTECTED_SELECTORS ->
  let r := handlers.start_detectors (load h) in
  r.1 = Normal tt /\
  host r.2
  = with_window (selfDefend.set_selfDefendInfo
      (Some {| targetFn := selfDefend.checkIntegrity; originalHash := VNum baseline |}))
      (with_console (LLog, ["[selfDefend] Self-defend initialized"])
         (with_console (LLog, ["[domGuard] DOM guard initialized"]) h)) /\
  timers r.2 !! 1%nat = Some (DomGuard, 3000) /\
  closures r.2 DomGuard
  = {| already := false; intervalId := Some 1%nat; callback := Some (PFun app.onTamper) |} /\
  initialSnapshot r.2 = entry_of h <$> domGuard.PROTECTED_SELECTORS /\
  calls r.2 = [SetInterval 1%nat DomGuard 3000; SetInterval 2%nat SelfDefend 4000].
Proof.
  intros Hr. cbv zeta. unfold handlers.start_detectors, mbind, M_bind.
  rewrite startDomGuard_readable by exact Hr. rewrite startSelfDefend_eq.
  split_and!; reflexivity.
Qed.

Lemma lock_messages_after_guard_warnings h sel a b reason :
  app.lock_messages
    (with_console (LWarn, [trigger_banner DomGuard; reason])
       (with_console
          (LWarn, ["[domGuard] Element text length changed a lot:"; sel;
                   "initial ="; a; "current ="; b]) h))
  = app.lock_messages h.
Proof.
  unfold app.lock_messages; simpl. rewrite !omap_app. simpl.
  rewrite !app_nil_r. reflexivity.
Qed.

(** After [init] on a page with readable protected elements, one user
    action followed by the next tick of the DOM guard: the guard fires
    exactly when the text of the list has drifted from its length at
    start-up by more than the factor. *)
Lemma guard_verdict `{Json} (a0 : App) (h0 : Host) (act : action) :
  has_list h0 ->
  readable h0 domGuard.PROTECTED_SELECTORS ->
  let r := handlers.init a0 h0 in
  let a1 := r.1 in
  let p := r.2.2 in
  let a2 := (perform act a1 (host p)).1 in
  let before := String.length (ui.list_text (listItems (view a1))) in
  let after := String.length (ui.list_text (listItems (view a2))) in
  let p1 := step p (External (by_user act a1)) in
  let p' := step p1 (Tick 1%nat) in
  r.2.1 = Normal tt /\
  shows a1 (host p) /\
  has_list (host p) /\
  (Qgtb (spec_ratio after before) 3 = true ->
   invoked DomGuard p' = ["snapshot-mismatch"] /\
   already (closures p' DomGuard) = true /\
   app.lock_messages (host p')
   = app.lock_messages (host p1) ++ ["DOM tampering detected. App locked."]) /\
  (Qgtb (spec_ratio after before) 3 = false ->
   p' = p1 /\ invoked DomGuard p' = []).
Proof.
  intros Hl Hr. unfold handlers.init. cbv zeta.
  set (hlog := with_console _ h0).
  destruct (loadTasks_document a0 hlog) as [Hd _].
  destruct (storage.loadTasks a0 hlog) as [ts hL]. simpl in Hd.
  assert (HlL : has_list hL) by (unfold has_list; rewrite Hd; exact Hl).
  pose proof (renderTasks_spec ts (currentFilter a0) (view a0) hL HlL) as Hren.
  pose proof (renderTasks_has_list ts (currentFilter a0) (view a0) hL HlL) as Hl1.
  simpl tasks. simpl currentFilter. simpl view.
  destruct (ui.renderTasks ts (currentFilter a0) (view a0) hL) as [v1 h1].
  cbv zeta in Hren. simpl in Hren, Hl1. destruct Hren as (R1 & R2 & (l1 & Rl & Rt) & R4).
  simpl fst. simpl snd.
  set (a1 := set_view v1 (set_tasks ts a0)).
  assert (Hsame1 : forall s, s <> "#task-list" ->
            elements (document h1) !! s = elements (document h0) !! s).
  { intros s Hs. rewrite R4 by exact Hs. rewrite Hd. reflexivity. }
  assert (Hr1 : readable h1 domGuard.PROTECTED_SELECTORS).
  { unfold readable in *. rewrite Forall_forall in *. intros s Hs e He.
    destruct (decide (s = "#task-list")) as [->|Hne].
    - rewrite Rl in He. injection He as <-. eauto.
    - rewrite Hsame1 in He by exact Hne. apply (Hr s Hs e He). }
  destruct (detectors_started h1 Hr1) as (D1 & D2 & D3 & D4 & D5 & D6).
  destruct (handlers.start_detectors (load h1)) as [c p]. simpl in D1, D2, D3, D4, D5, D6.
  simpl fst. simpl snd.
  assert (Hdoc : document (host p) = document h1) by (rewrite D2; reflexivity).
  assert (Hshow1 : shows a1 (host p)).
  { unfold shows. rewrite Hdoc. simpl. split_and!; eauto. }
  assert (Hlp : has_list (host p)) by (unfold has_list; rewrite Hdoc; exact Hl1).
  destruct (perform_spec act a1 (host p) Hlp) as (P1 & P2 & _ & P5).
  unfold by_user. simpl step at 2.
  destruct (perform act a1 (host p)) as [a2 h2] eqn:Hact. simpl in P1, P2, P5. simpl fst.
  set (p1 := with_host (fun h => (perform act a1 h).2) p).
  assert (Hh1 : host p1 = h2) by (simpl; rewrite Hact; reflexivity).
  destruct P1 as (_ & _ & (l2 & Pl & Pt)).
  assert (Hstep : step p1 (Tick 1%nat) = (poll DomGuard p1).2).
  { simpl. rewrite D3, handler_poll. simpl. rewrite D4. reflexivity. }
  assert (Hfirst : forall s, s ∈ [".app-main"; "#task-form"; ".task-filters"] ->
            domGuard.itemTampered (entry_of h1 s) p1 = (Normal false, p1)).
  { intros s Hs. apply entry_not_tampered_on.
    - rewrite Hh1, P5, Hdoc; [reflexivity|].
      intros ->. repeat (apply elem_of_cons in Hs as [Hs|Hs]; [discriminate|]).
      inversion Hs.
    - unfold readable in *. rewrite Forall_forall in *.
      intros s' Hs'. apply list_elem_of_singleton in Hs' as ->.
      apply Hr1. unfold domGuard.PROTECTED_SELECTORS.
      repeat (apply elem_of_cons in Hs as [->|Hs]; [repeat constructor|]).
      inversion Hs. }
  assert (Hentry : entry_of h1 "#task-list"
                   = {| selector := "#task-list"; exists_ := true;
                        textLength := String.length (ui.list_text (listItems v1)) |}).
  { unfold entry_of. rewrite Rl, Rt. reflexivity. }
  assert (Hlast : domGuard.itemTampered (entry_of h1 "#task-list") p1 =
            if Qgtb (spec_ratio (String.length (ui.list_text (listItems (view a2))))
                       (String.length (ui.list_text (listItems v1)))) 3
            then (Normal true,
                  with_host (with_console
                    (LWarn, ["[domGuard] Element text length changed a lot:"; "#task-list";
                             "initial ="; pretty (String.length (ui.list_text (listItems v1)));
                             "current =";
                             pretty (String.length (ui.list_text (listItems (view a2))))])) p1)
            else (Normal false, p1)).
  { rewrite Hentry.
    assert (E1 : elements (document (host p1)) !!
                   selector {| selector := "#task-list"; exists_ := true;
                               textLength := String.length (ui.list_text (listItems v1)) |}
                 = Some l2) by (rewrite Hh1; exact Pl).
    exact (itemTampered_present_page p1 _ l2 _ E1 Pt eq_refl). }
  assert (Hdet : detect DomGuard p1 =
            let '(c, q) := domGuard.itemTampered (entry_of h1 "#task-list") p1 in
            match c with
            | Normal b => (Normal (if b then Some "snapshot-mismatch" else None), q)
            | Throw e => (Throw e, q)
            end).
  { simpl detect. unfold mbind at 1, M_bind at 1, get.
    change (initialSnapshot p1) with (initialSnapshot p). rewrite D5.
    unfold domGuard.PROTECTED_SELECTORS. simpl fmap. simpl domGuard.isTampered.
    unfold mbind, M_bind.
    rewrite (Hfirst ".app-main") by repeat constructor.
    rewrite (Hfirst "#task-form") by repeat constructor.
    rewrite (Hfirst ".task-filters") by repeat constructor.
    destruct (domGuard.itemTampered (entry_of h1 "#task-list") p1) as [[[]|e] q];
      reflexivity. }
  split; [exact D1|]. split; [exact Hshow1|]. split; [exact Hlp|].
  simpl view at 1 2.
  change (step p (External (fun h => (perform act a1 h).2))) with p1.
  rewrite Hstep, poll_detect, Hdet, Hlast.
  split.
  - intros Hg. rewrite Hg. cbv beta iota zeta.
    set (q := with_host _ p1).
    assert (Hfl : already (closures q DomGuard) = false) by (simpl; rewrite D4; reflexivity).
    unfold try_catch.
    rewrite (trigger_fresh DomGuard "snapshot-mismatch" q Hfl). cbv zeta.
    replace (intervalId (closures q DomGuard)) with (Some 1%nat)
      by (simpl; rewrite D4; reflexivity).
    replace (callback (closures q DomGuard)) with (Some (PFun app.onTamper))
      by (simpl; rewrite D4; reflexivity).
    unfold call_host, app.onTamper, app.locking. simpl.
    split_and!.
    + unfold invoked; simpl. rewrite D6. reflexivity.
    + reflexivity.
    + rewrite lockApp_lock_messages. f_equal.
      apply lock_messages_after_guard_warnings.
  - intros Hg. change (view a1) with v1 in Hg. rewrite Hg.
    cbv beta iota zeta. simpl snd. split; [reflexivity|].
    unfold invoked; simpl. rewrite D6. reflexivity.
Qed.

(** X18.  The DOM guard measures the task list that the application
    itself renders.  After [init] on a page whose protected elements can
    be read, if one user action (add, toggle, delete, change of filter)
    leaves the text of [#task-list] more than three times longer or
    shorter than it was at start-up, the next tick of the guard's timer
    reports ["snapshot-mismatch"] to [onTamper], which locks the
    application with the tampering message. *)
Theorem list_drift_locks_the_app `{Json} (a0 : App) (h0 : Host) (act : action) :
  has_list h0 ->
  readable h0 domGuard.PROTECTED_SELECTORS ->
  let r := handlers.init a0 h0 in
  let a1 := r.1 in
  let a2 := (perform act a1 (host r.2.2)).1 in
  let before := String.length (ui.list_text (listItems (view a1))) in
  let after := String.length (ui.list_text (listItems (view a2))) in
  (3 * Nat.max 1 (Nat.min after before) < Nat.max after before)%nat ->
  let p1 := step r.2.2 (External (by_user act a1)) in
  let p' := step p1 (Tick 1%nat) in
  invoked DomGuard p' = ["snapshot-mismatch"] /\
  already (closures p' DomGuard) = true /\
  app.lock_messages (host p')
  = app.lock_messages (host p1) ++ ["DOM tampering detected. App locked."].
Proof.
  intros Hl Hr. cbv zeta. intros Hdrift.
  destruct (guard_verdict a0 h0 act Hl Hr) as (_ & _ & _ & Hfire & _).
  apply Hfire. apply Qgtb_lt. unfold spec_ratio.
  apply quotient_exceeds_3; lia.
Qed.

Lemma list_drift_locks_the_app_witness :
  let r := @handlers.init unary_json fresh_app tasks_host in
  let p1 := step r.2.2 (External (@by_user unary_json (Add "1" "Buy milk" "") r.1)) in
  let p' := step p1 (Tick 1%nat) in
  invoked DomGuard p' = ["snapshot-mismatch"] /\
  already (closures p' DomGuard) = true /\
  app.lock_messages (host p')
  = app.lock_messages (host p1) ++ ["DOM tampering detected. App locked."].
Proof.
  refine (@list_drift_locks_the_app unary_json fresh_app tasks_host
            (Add "1" "Buy milk" "") _ _ _).
  - split; eexists; vm_compute; reflexivity.
  - repeat constructor; intros e He; vm_compute in He;
      injection He as <-; eexists; reflexivity.
  - vm_compute. lia.
Defined.

(** X19.  A consequence for the ordinary use of the application: when a
    user action takes the rendered list from empty to non-empty or from
    non-empty to empty, compared with the list shown at start-up (the
    first task added to an empty list, the last one deleted, a filter
    that shows nothing), the next tick of the DOM guard locks the
    application.  Each rendered item carries at least the six characters
    of its Delete button, against the floor of one character that
    [isTampered] uses for an empty text. *)
Theorem emptying_or_filling_the_list_locks_the_app `{Json}
    (a0 : App) (h0 : Host) (act : action) :
  has_list h0 ->
  readable h0 domGuard.PROTECTED_SELECTORS ->
  let r := handlers.init a0 h0 in
  let a1 := r.1 in
  let a2 := (perform act a1 (host r.2.2)).1 in
  (ui.visible (tasks a1) (currentFilter a1) = [] /\
   ui.visible (tasks a2) (currentFilter a2) <> []) \/
  (ui.visible (tasks a1) (currentFilter a1) <> [] /\
   ui.visible (tasks a2) (currentFilter a2) = []) ->
  let p1 := step r.2.2 (External (by_user act a1)) in
  let p' := step p1 (Tick 1%nat) in
  invoked DomGuard p' = ["snapshot-mismatch"] /\
  already (closures p' DomGuard) = true /\
  app.lock_messages (host p')
  = app.lock_messages (host p1) ++ ["DOM tampering detected. App locked."].
Proof.
  intros Hl Hr. cbv zeta. intros Hflip.
  destruct (guard_verdict a0 h0 act Hl Hr) as (_ & Hs1 & Hlp & Hfire & _).
  apply Hfire. apply Qgtb_lt. unfold spec_ratio.
  destruct (perform_spec act (handlers.init a0 h0).1 (host (handlers.init a0 h0).2.2) Hlp)
    as ((Hs2 & _) & _).
  destruct Hs1 as (Hs1 & _). cbv zeta in Hs2. rewrite Hs1, Hs2.
  apply quotient_exceeds_3; [lia|].
  destruct Hflip as [[E1 E2]|[E1 E2]].
  - rewrite E1.
    destruct (ui.visible (tasks (perform act _ _).1) _) as [|t ts] eqn:Ev; [congruence|].
    pose proof (list_text_cons_length (ui.render t) (ui.render <$> ts)) as Hlen.
    change (ui.render <$> t :: ts) with (ui.render t :: (ui.render <$> ts)).
    simpl ui.list_text at 2 4. simpl String.length at 2 4. lia.
  - rewrite E2.
    destruct (ui.visible (tasks (handlers.init a0 h0).1) _) as [|t ts] eqn:Ev; [congruence|].
    pose proof (list_text_cons_length (ui.render t) (ui.render <$> ts)) as Hlen.
    change (ui.render <$> t :: ts) with (ui.render t :: (ui.render <$> ts)).
    simpl ui.list_text at 1 3. simpl String.length at 1 3. lia.
Qed.

Lemma emptying_or_filling_the_list_locks_the_app_witness :
  let r := @handlers.init unary_json fresh_app tasks_host in
  let p1 := step r.2.2 (External (@by_user unary_json (Add "2" "Call the bank" "before noon") r.1)) in
  let p' := step p1 (Tick 1%nat) in
  invoked DomGuard p' = ["snapshot-mismatch"] /\
  already (closures p' DomGuard) = true /\
  app.lock_messages (host p')
  = app.lock_messages (host p1) ++ ["DOM tampering detected. App locked."].
Proof.
  refine (@emptying_or_filling_the_list_locks_the_app unary_json fresh_app tasks_host
            (Add "2" "Call the bank" "before noon") _ _ _).
  - split; eexists; vm_compute; reflexivity.
  - repeat constructor; intros e He; vm_compute in He;
      injection He as <-; eexists; reflexivity.
  - left. split; [vm_compute; reflexivity | vm_compute; discriminate].
Defined.
